(** * markdown2html.py: a shallow embedding and its verification

    The script converts a small Markdown subset to HTML.  Its pure core is
    made of an inline transformer ([parse_inline_markdown], four [re.sub]
    passes), four block recognisers ([parse_headings],
    [parse_unordered_list], [parse_ordered_list], [parse_paragraph]) and
    the scanning loop of [convert_markdown_to_html]; [main] is the driver.
    The driver and the conversion reach the files through the calls of an
    interface [OS], whose answers are not constrained: every call that can
    raise in Python can raise here.

    A Python [str] is a sequence of Unicode code points: it is modelled as
    a list of [N].  An exception is a value of [exn] carried by the
    [result] monad.  Regular expressions are kept as syntax and run by a
    backtracking matcher that tries the alternatives in the order of
    Python's [re] module. *)

From Stdlib Require Import NArith Ascii String DecimalString.
From stdpp Require Import base option list strings gmap.

(** ** Strings *)

Abbreviation pychar := N (only parsing).
Abbreviation pystr := (list N) (only parsing).

Definition ch (a : ascii) : pychar := N_of_ascii a.

(** The code points of an ASCII literal. *)
Definition py (s : string) : pystr := map ch (list_ascii_of_string s).

Definition nl : pychar := 10%N.

(** A literal followed by a newline, as in ["<ul>\n"]. *)
Definition ln (s : string) : pystr := py s ++ [nl].

(** [str.isspace] on one character, which is also the class [\s] of [re]
    on a [str] pattern: the code points CPython lists as whitespace. *)
Definition isspace (c : pychar) : bool :=
  ((9 <=? c) && (c <=? 13) || (28 <=? c) && (c <=? 32)
   || (c =? 133) || (c =? 160) || (c =? 5760)
   || (8192 <=? c) && (c <=? 8202)
   || (c =? 8232) || (c =? 8233) || (c =? 8239) || (c =? 8287)
   || (c =? 12288))%N.

Fixpoint lstrip (s : pystr) : pystr :=
  match s with
  | c :: s' => if isspace c then lstrip s' else s
  | [] => []
  end.

Definition rstrip (s : pystr) : pystr := reverse (lstrip (reverse s)).

(** [s.strip()] *)
Definition strip (s : pystr) : pystr := rstrip (lstrip s).

(** [s.startswith(p)] *)
Fixpoint startswith (p s : pystr) : bool :=
  match p, s with
  | [], _ => true
  | a :: p', b :: s' => (a =? b)%N && startswith p' s'
  | _ :: _, [] => false
  end.

(** ['\n'.join(l)] *)
Fixpoint join_nl (l : list pystr) : pystr :=
  match l with
  | [] => []
  | [x] => x
  | x :: l' => x ++ nl :: join_nl l'
  end.

(** [str(n)] for a non-negative integer. *)
Definition str_of_nat (n : nat) : pystr :=
  py (NilEmpty.string_of_uint (Nat.to_uint n)).

(** ** Exceptions *)

(** The exceptions the script can meet: of [str.encode], of [open] and of
    text-mode reading and writing; [OSError] stands for the other errors of
    the operating system. *)
Inductive exn :=
| UnicodeEncodeError
| UnicodeDecodeError
| FileNotFoundError
| IsADirectoryError
| PermissionError
| OSError.

Inductive result (A : Type) :=
| Ok (a : A)
| Raise (e : exn).
Arguments Ok {A} a.
Arguments Raise {A} e.

#[global] Instance result_ret : MRet result := λ A a, Ok a.

#[global] Instance result_bind : MBind result := λ A B f m,
  match m with
  | Ok a => f a
  | Raise e => Raise e
  end.

(** ** Regular expressions

    The fragment of [re] the script uses: anchors, one character of a
    class, a counted repetition of one character of a class (greedy or
    lazy), numbered groups and concatenation. *)

Inductive greed := Greedy | Lazy.

Inductive regex :=
| Bol
| Eol
| Chr (p : pychar → bool)
| Rep (g : greed) (lo : nat) (hi : option nat) (p : pychar → bool)
| Grp (n : nat) (r : regex)
| Seq (r1 r2 : regex).

Infix ">>" := Seq (at level 60, right associativity).

Definition Lit (a : ascii) : regex := Chr (N.eqb (ch a)).

(** [.] without [DOTALL] *)
Definition dot (c : pychar) : bool := negb (c =? nl)%N.

Abbreviation captures := (list (nat * list N)) (only parsing).

(** [m.group(n)] of a group that took part in the match. *)
Fixpoint group (n : nat) (caps : captures) : pystr :=
  match caps with
  | (k, v) :: caps' => if (k =? n)%nat then v else group n caps'
  | [] => []
  end.

Definition can_take (hi : option nat) : bool :=
  match hi with
  | Some 0 => false
  | _ => true
  end.

(** [p{lo,hi}] (or [p{lo,hi}?]) followed by the continuation [k]: the greedy
    form first tries one more character, the lazy form first tries to stop. *)
Fixpoint rep {A} (g : greed) (p : pychar → bool) (lo : nat) (hi : option nat)
    (s : pystr) (k : pystr → option A) : option A :=
  let stop := fun _ : unit => match lo with 0 => k s | S _ => None end in
  let more := fun _ : unit =>
    match s with
    | c :: s' =>
        if can_take hi && p c then rep g p (pred lo) (pred <$> hi) s' k else None
    | [] => None
    end in
  match g with
  | Greedy => match more () with Some r => Some r | None => stop () end
  | Lazy => match stop () with Some r => Some r | None => more () end
  end.

(** The backtracking matcher: [rmatch r whole s caps k] matches [r] at the
    suffix [s] of [whole] and hands the rest of the text and the groups to
    [k]; the first success in the order of the alternatives is the result. *)
Fixpoint rmatch {A} (r : regex) (whole s : pystr) (caps : captures)
    (k : pystr → captures → option A) : option A :=
  match r with
  | Bol => if (length s =? length whole)%nat then k s caps else None
  | Eol =>
      match s with
      | [] => k s caps
      | [c] => if (c =? nl)%N then k s caps else None
      | _ => None
      end
  | Chr p =>
      match s with
      | c :: s' => if p c then k s' caps else None
      | [] => None
      end
  | Rep g lo hi p => rep g p lo hi s (fun s' => k s' caps)
  | Grp n r' =>
      rmatch r' whole s caps
        (fun s' caps' => k s' ((n, take (length s - length s') s) :: caps'))
  | Seq r1 r2 =>
      rmatch r1 whole s caps (fun s' caps' => rmatch r2 whole s' caps' k)
  end.

(** A match of [r] starting exactly at the suffix [s] of [whole]: the text
    after the match and the groups. *)
Definition match_here (r : regex) (whole s : pystr) : option (pystr * captures) :=
  rmatch r whole s [] (fun s' caps => Some (s', caps)).

(** [re.match(r, s)] *)
Definition re_match (r : regex) (s : pystr) : option captures :=
  snd <$> match_here r s s.

(** [re.sub(r, repl, s)] for a pattern that matches no empty string: the scan
    goes left to right, a match is replaced by [repl] of its groups and the
    scan resumes after it, any other character is copied.  [fuel] bounds the
    number of positions visited. *)
Fixpoint sub_from (fuel : nat) (r : regex) (repl : captures → result pystr)
    (whole s : pystr) : result pystr :=
  match fuel, s with
  | 0, _ => Ok s
  | _, [] => Ok []
  | S fuel', c :: s' =>
      match match_here r whole s with
      | Some (rest, caps) =>
          if (length rest <? length s)%nat then
            out ← repl caps;
            tl ← sub_from fuel' r repl whole rest;
            Ok (out ++ tl)
          else
            tl ← sub_from fuel' r repl whole s'; Ok (c :: tl)
      | None =>
          tl ← sub_from fuel' r repl whole s'; Ok (c :: tl)
      end
  end.

Definition re_sub (r : regex) (repl : captures → result pystr) (s : pystr)
    : result pystr :=
  sub_from (S (length s)) r repl s s.

(** ** [str.encode()] and [hashlib.md5]

    Bytes are numbers below 256.  [encode] is UTF-8 with the [strict] error
    handler: a surrogate code point cannot be encoded.  A number from
    [0x110000] on is no code point and occurs in no Python string; [encode]
    rejects it as well. *)

Definition encode_char (c : pychar) : result (list N) :=
  (if c <? 0x80 then Ok [c]
   else if c <? 0x800 then Ok [0xC0 + c / 64; 0x80 + c mod 64]
   else if c <? 0x10000 then
     if (0xD800 <=? c) && (c <=? 0xDFFF) then Raise UnicodeEncodeError
     else Ok [0xE0 + c / 4096; 0x80 + (c / 64) mod 64; 0x80 + c mod 64]
   else if c <? 0x110000 then
     Ok [0xF0 + c / 262144; 0x80 + (c / 4096) mod 64;
         0x80 + (c / 64) mod 64; 0x80 + c mod 64]
   else Raise UnicodeEncodeError)%N.

Fixpoint encode (s : pystr) : result (list N) :=
  match s with
  | [] => Ok []
  | c :: s' => b ← encode_char c; bs ← encode s'; Ok (b ++ bs)
  end.

(** MD5 as RFC 1321 defines it, on 32-bit words kept in [N]. *)
Module MD5.

Definition add32 (a b : N) : N := ((a + b) mod 2 ^ 32)%N.
Definition not32 (a : N) : N := N.lxor a 0xFFFFFFFF.
Definition rotl32 (x c : N) : N :=
  (N.lor (N.shiftl x c) (N.shiftr x (32 - c)) mod 2 ^ 32)%N.

Definition shifts : list N :=
  [7; 12; 17; 22; 7; 12; 17; 22; 7; 12; 17; 22; 7; 12; 17; 22;
   5; 9; 14; 20; 5; 9; 14; 20; 5; 9; 14; 20; 5; 9; 14; 20;
   4; 11; 16; 23; 4; 11; 16; 23; 4; 11; 16; 23; 4; 11; 16; 23;
   6; 10; 15; 21; 6; 10; 15; 21; 6; 10; 15; 21; 6; 10; 15; 21]%N.

Definition sines : list N :=
  [0xd76aa478; 0xe8c7b756; 0x242070db; 0xc1bdceee;
   0xf57c0faf; 0x4787c62a; 0xa8304613; 0xfd469501;
   0x698098d8; 0x8b44f7af; 0xffff5bb1; 0x895cd7be;
   0x6b901122; 0xfd987193; 0xa679438e; 0x49b40821;
   0xf61e2562; 0xc040b340; 0x265e5a51; 0xe9b6c7aa;
   0xd62f105d; 0x02441453; 0xd8a1e681; 0xe7d3fbc8;
   0x21e1cde6; 0xc33707d6; 0xf4d50d87; 0x455a14ed;
   0xa9e3e905; 0xfcefa3f8; 0x676f02d9; 0x8d2a4c8a;
   0xfffa3942; 0x8771f681; 0x6d9d6122; 0xfde5380c;
   0xa4beea44; 0x4bdecfa9; 0xf6bb4b60; 0xbebfbc70;
   0x289b7ec6; 0xeaa127fa; 0xd4ef3085; 0x04881d05;
   0xd9d4d039; 0xe6db99e5; 0x1fa27cf8; 0xc4ac5665;
   0xf4292244; 0x432aff97; 0xab9423a7; 0xfc93a039;
   0x655b59c3; 0x8f0ccc92; 0xffeff47d; 0x85845dd1;
   0x6fa87e4f; 0xfe2ce6e0; 0xa3014314; 0x4e0811a1;
   0xf7537e82; 0xbd3af235; 0x2ad7d2bb; 0xeb86d391]%N.

(** Little-endian bytes of a number, [n] of them. *)
Fixpoint le_bytes (n : nat) (x : N) : list N :=
  match n with
  | 0 => []
  | S n' => (x mod 256)%N :: le_bytes n' (x / 256)%N
  end.

(** Little-endian 32-bit words of a byte string. *)
Fixpoint words (bs : list N) : list N :=
  match bs with
  | b0 :: b1 :: b2 :: b3 :: bs' =>
      (b0 + 256 * (b1 + 256 * (b2 + 256 * b3)))%N :: words bs'
  | _ => []
  end.

Definition pad (msg : list N) : list N :=
  let len := length msg in
  msg ++ [0x80%N] ++ replicate ((119 - len mod 64) mod 64) 0%N
      ++ le_bytes 8 ((8 * N.of_nat len) mod 2 ^ 64)%N.

Fixpoint chunks (k : nat) (bs : list N) : list (list N) :=
  match k with
  | 0 => []
  | S k' => take 64 bs :: chunks k' (drop 64 bs)
  end.

Definition state : Type := N * N * N * N.

Definition step (m : list N) (st : state) (i : nat) : state :=
  let '(a, b, c, d) := st in
  let '(f, g) :=
    if i <? 16 then (N.lor (N.land b c) (N.land (not32 b) d), i)
    else if i <? 32 then
      (N.lor (N.land d b) (N.land (not32 d) c), (5 * i + 1) mod 16)
    else if i <? 48 then (N.lxor b (N.lxor c d), (3 * i + 5) mod 16)
    else (N.lxor c (N.lor b (not32 d)), (7 * i) mod 16) in
  let f' := add32 (add32 (add32 f a) (nth i sines 0%N)) (nth g m 0%N) in
  (d, add32 b (rotl32 f' (nth i shifts 0%N)), b, c).

Definition block (st : state) (bs : list N) : state :=
  let '(a0, b0, c0, d0) := st in
  let '(a, b, c, d) := foldl (step (words bs)) st (seq 0 64) in
  (add32 a0 a, add32 b0 b, add32 c0 c, add32 d0 d).

Definition init : state :=
  (0x67452301, 0xefcdab89, 0x98badcfe, 0x10325476)%N.

(** [hashlib.md5(msg).digest()] *)
Definition digest (msg : list N) : list N :=
  let p := pad msg in
  let '(a, b, c, d) := foldl block init (chunks (length p / 64) p) in
  le_bytes 4 a ++ le_bytes 4 b ++ le_bytes 4 c ++ le_bytes 4 d.

Definition hexdigit (x : N) : pychar :=
  (if x <? 10 then 48 + x else 87 + x)%N.

(** [hashlib.md5(msg).hexdigest()] *)
Definition hexdigest (msg : list N) : pystr :=
  flat_map (fun b => [hexdigit (b / 16); hexdigit (b mod 16)]%N) (digest msg).

End MD5.

(** ** The inline transformer *)

Definition md5_hash (text : pystr) : result pystr :=
  bs ← encode text; Ok (MD5.hexdigest bs).

Definition is_c (c : pychar) : bool := (c =? ch "c")%N || (c =? ch "C")%N.

Definition remove_c (text : pystr) : result pystr :=
  re_sub (Chr is_c) (fun _ => Ok []) text.

(** [r'\*\*(.*?)\*\*'] *)
Definition bold_pattern : regex :=
  Lit "*" >> Lit "*" >> Grp 1 (Rep Lazy 0 None dot) >> Lit "*" >> Lit "*".

(** [r'__(.*?)__'] *)
Definition em_pattern : regex :=
  Lit "_" >> Lit "_" >> Grp 1 (Rep Lazy 0 None dot) >> Lit "_" >> Lit "_".

(** [r'\[\[(.*?)\]\]'] *)
Definition md5_pattern : regex :=
  Lit "[" >> Lit "[" >> Grp 1 (Rep Lazy 0 None dot) >> Lit "]" >> Lit "]".

(** [r'\(\((.*?)\)\)'] *)
Definition strip_pattern : regex :=
  Lit "(" >> Lit "(" >> Grp 1 (Rep Lazy 0 None dot) >> Lit ")" >> Lit ")".

Definition parse_inline_markdown (text : pystr) : result pystr :=
  text ← re_sub bold_pattern
    (fun m => Ok (py "<b>" ++ group 1 m ++ py "</b>")) text;
  text ← re_sub em_pattern
    (fun m => Ok (py "<em>" ++ group 1 m ++ py "</em>")) text;
  text ← re_sub md5_pattern (fun m => md5_hash (group 1 m)) text;
  text ← re_sub strip_pattern (fun m => remove_c (group 1 m)) text;
  Ok text.

(** ** The block recognisers *)

(** [r'^(#{1,6})\s(.+)$'] *)
Definition heading_pattern : regex :=
  Bol >> Grp 1 (Rep Greedy 1 (Some 6) (N.eqb (ch "#"))) >> Chr isspace
      >> Grp 2 (Rep Greedy 1 None dot) >> Eol.

Definition parse_headings (line : pystr) : result (option pystr) :=
  match re_match heading_pattern line with
  | Some m =>
      let level := length (group 1 m) in
      content ← parse_inline_markdown (group 2 m);
      Ok (Some (py "<h" ++ str_of_nat level ++ py ">" ++ content
                ++ py "</h" ++ str_of_nat level ++ ln ">"))
  | None => Ok None
  end.

(** The [for] loop of [parse_unordered_list]; [html_list] is the list the
    loop appends to. *)
Fixpoint ul_loop (lines : list pystr) (html_list : list pystr)
    : result (list pystr) :=
  match lines with
  | line :: lines' =>
      if startswith (py "- ") line then
        item ← parse_inline_markdown (strip (drop 2 line));
        ul_loop lines' (html_list ++ [py "<li>" ++ item ++ py "</li>"])
      else Ok html_list
  | [] => Ok html_list
  end.

Definition parse_unordered_list (lines : list pystr)
    : result (option (pystr * nat)) :=
  match lines with
  | [] => Ok None
  | line0 :: _ =>
      if negb (startswith (py "- ") line0) then Ok None
      else
        html_list ← ul_loop lines [py "<ul>"];
        let html_list := html_list ++ [py "</ul>"] in
        Ok (Some (join_nl html_list ++ [nl], length html_list - 2))
  end.

(** The [for] loop of [parse_ordered_list]. *)
Fixpoint ol_loop (lines : list pystr) (html_list : list pystr)
    : result (list pystr) :=
  match lines with
  | line :: lines' =>
      if startswith (py "* ") line then
        item ← parse_inline_markdown (strip (drop 2 line));
        ol_loop lines' (html_list ++ [py "<li>" ++ item ++ py "</li>"])
      else Ok html_list
  | [] => Ok html_list
  end.

Definition parse_ordered_list (lines : list pystr)
    : result (option (pystr * nat)) :=
  match lines with
  | [] => Ok None
  | line0 :: _ =>
      if negb (startswith (py "* ") line0) then Ok None
      else
        html_list ← ol_loop lines [py "<ol>"];
        let html_list := html_list ++ [py "</ol>"] in
        Ok (Some (join_nl html_list ++ [nl], length html_list - 2))
  end.

Definition is_empty (s : pystr) : bool :=
  match s with [] => true | _ => false end.

(** The [for] loop of [parse_paragraph] over [enumerate(lines)]; [i] is the
    index of the line at the head of [lines]. *)
Fixpoint para_loop (i : nat) (lines : list pystr) (html_para : list pystr)
    : result (list pystr) :=
  match lines with
  | line :: lines' =>
      if is_empty (strip line) then Ok html_para
      else
        let html_para :=
          if 0 <? i then html_para ++ [py "<br/>"] else html_para in
        text ← parse_inline_markdown (strip line);
        para_loop (S i) lines' (html_para ++ [text])
  | [] => Ok html_para
  end.

Definition parse_paragraph (lines : list pystr)
    : result (option (pystr * nat)) :=
  match lines with
  | [] => Ok None
  | line0 :: _ =>
      if is_empty (strip line0) then Ok None
      else
        html_para ← para_loop 0 lines [py "<p>"];
        let html_para := html_para ++ [py "</p>"] in
        Ok (Some (join_nl html_para ++ [nl], length html_para - 2))
  end.

(** ** The scanning loop *)

(** One iteration of the [while] loop of [convert_markdown_to_html] at
    cursor [i < len(lines)]: the text written and the next cursor.  A
    heading is tested for truth, so an empty string would count as no
    heading. *)
Definition scan_step (lines : list pystr) (i : nat) : result (pystr * nat) :=
  let line := strip (default [] (lines !! i)) in
  heading ← parse_headings line;
  match heading with
  | Some (c :: h) => Ok (c :: h, i + 1)
  | _ =>
      ul_result ← parse_unordered_list (drop i lines);
      match ul_result with
      | Some (html_list, items_count) => Ok (html_list, i + items_count)
      | None =>
          ol_result ← parse_ordered_list (drop i lines);
          match ol_result with
          | Some (html_list, items_count) => Ok (html_list, i + items_count)
          | None =>
              para_result ← parse_paragraph (drop i lines);
              match para_result with
              | Some (html_para, lines_count) => Ok (html_para, i + lines_count)
              | None => Ok ([], i + 1)
              end
          end
      end
  end.

(** The [while] loop: [out] is what has been written so far.  The result is
    [None] when [fuel] iterations were not enough, otherwise the text
    written and the exception that ended the loop, if any. *)
Fixpoint scan (fuel : nat) (lines : list pystr) (i : nat) (out : pystr)
    : option (pystr * option exn) :=
  match fuel with
  | 0 => None
  | S fuel' =>
      if i <? length lines then
        match scan_step lines i with
        | Ok (html, i') => scan fuel' lines i' (out ++ html)
        | Raise e => Some (out, Some e)
        end
      else Some (out, None)
  end.

(** ** Files and the driver

    The script reaches the files through six calls of the operating
    system.  What they answer is not the script's business: whether a path
    exists (a directory does), whether it can be opened (a missing
    directory, a directory in place of a file, a missing permission), what
    decoding the bytes yields, whether a write goes through.  The interface
    below fixes the calls and assumes nothing about the answers.  [world] is
    the state of everything outside the computation, the buffers of the
    file objects included; a call that can change it returns the new state,
    also when it raises.  Two paths may name one file: the answer to a call
    is a function of the world, not of the spelling. *)

Class OS (world : Type) := {
  (** a file object *)
  handle : Type;
  (** [os.path.exists(path)] *)
  os_path_exists : world → pystr → bool;
  (** [open(path, 'r')] *)
  os_open_r : world → pystr → result handle;
  (** [open(path, 'w')] *)
  os_open_w : world → pystr → world * result handle;
  (** [f.readlines()] *)
  os_readlines : world → handle → result (list pystr);
  (** [f.write(text)] *)
  os_write : world → handle → pystr → world * option exn;
  (** [f.close()], which leaving a [with] block calls *)
  os_close : world → handle → world * option exn;
}.

(** What one iteration of the loop does with the output file. *)
Inductive action :=
| Write (html : pystr)
| Skip.

(** One iteration of the [while] loop at cursor [i < len(lines)]: the call
    of [html_file.write], if the branch taken has one, and the next
    cursor. *)
Definition scan_action (lines : list pystr) (i : nat) : result (action * nat) :=
  let line := strip (default [] (lines !! i)) in
  heading ← parse_headings line;
  match heading with
  | Some (c :: h) => Ok (Write (c :: h), i + 1)
  | _ =>
      ul_result ← parse_unordered_list (drop i lines);
      match ul_result with
      | Some (html_list, items_count) => Ok (Write html_list, i + items_count)
      | None =>
          ol_result ← parse_ordered_list (drop i lines);
          match ol_result with
          | Some (html_list, items_count) => Ok (Write html_list, i + items_count)
          | None =>
              para_result ← parse_paragraph (drop i lines);
              match para_result with
              | Some (html_para, lines_count) =>
                  Ok (Write html_para, i + lines_count)
              | None => Ok (Skip, i + 1)
              end
          end
      end
  end.

(** The [while] loop on the output file [html_file]: the world it leaves
    and the exception that ended it, if any; [None] when [fuel] iterations
    were not enough. *)
Fixpoint scan_io `{OS world} (fuel : nat) (lines : list pystr) (i : nat)
    (w : world) (html_file : handle) : option (world * option exn) :=
  match fuel with
  | 0 => None
  | S fuel' =>
      if i <? length lines then
        match scan_action lines i with
        | Ok (Write html, i') =>
            match os_write w html_file html with
            | (w', None) => scan_io fuel' lines i' w' html_file
            | (w', Some e) => Some (w', Some e)
            end
        | Ok (Skip, i') => scan_io fuel' lines i' w html_file
        | Raise e => Some (w, Some e)
        end
      else Some (w, None)
  end.

(** Leaving the [with] block of the file object [f]: the file is closed,
    whether the block ended with an exception or not; an exception of
    [close] is the one that goes on. *)
Definition leave_with `{OS world} (f : handle) (r : world * option exn)
    : world * option exn :=
  let '(w, e) := r in
  match os_close w f with
  | (w', Some e') => (w', Some e')
  | (w', None) => (w', e)
  end.

(** [with open(input_file, 'r') as md_file, open(output_file, 'w') as
    html_file:] opens the input, then the output, which truncates it before
    the input is read; the two files are closed in the reverse order.
    Nothing is caught: the result holds the exception that leaves the
    function, if any. *)
Definition convert_markdown_to_html `{OS world} (fuel : nat)
    (input_file output_file : pystr) (w : world)
    : option (world * option exn) :=
  match os_open_r w input_file with
  | Raise e => Some (w, Some e)
  | Ok md_file =>
      r ← match os_open_w w output_file with
          | (w, Raise e) => Some (w, Some e)
          | (w, Ok html_file) =>
              r ← match os_readlines w md_file with
                  | Raise e => Some (w, Some e)
                  | Ok lines => scan_io fuel lines 0 w html_file
                  end;
              Some (leave_with html_file r)
          end;
      Some (leave_with md_file r)
  end.

(** How the process ends: [sys.exit(code)] after writing [err] to the
    standard error stream, or an exception nobody caught, which the
    interpreter reports with a traceback. *)
Inductive outcome :=
| Exit (code : nat) (err : pystr)
| Uncaught (e : exn).

(** The exit status of the process: 1 after an uncaught exception. *)
Definition status (o : outcome) : nat :=
  match o with
  | Exit code _ => code
  | Uncaught _ => 1
  end.

Definition usage : pystr := ln "Usage: ./markdown2html.py README.md README.html".

Definition main `{OS world} (fuel : nat) (argv : list pystr) (w : world)
    : option (world * outcome) :=
  if length argv <? 3 then Some (w, Exit 1 usage)
  else
    let input_file := default [] (argv !! 1) in
    let output_file := default [] (argv !! 2) in
    if negb (os_path_exists w input_file) then
      Some (w, Exit 1 (py "Missing " ++ input_file ++ [nl]))
    else
      '(w', e) ← convert_markdown_to_html fuel input_file output_file w;
      match e with
      | Some e => Some (w', Uncaught e)
      | None => Some (w', Exit 0 [])
      end.

(** *** A directory of text files

    One instance of the interface, for runs on concrete files: a single
    directory of regular text files, each under its name, with the text as
    text-mode reading presents it (decoded, line ends translated to
    ["\n"]).  There are no subdirectories, links or permissions: a path
    names a file when it is the file's name, and a file can be created
    under a name that is not empty and has no [/]. *)

(** [f.readlines()] on a text *)
Fixpoint split_lines (cur text : pystr) : list pystr :=
  match text with
  | [] => match cur with [] => [] | _ => [cur] end
  | c :: text' =>
      if (c =? nl)%N then (cur ++ [c]) :: split_lines [] text'
      else split_lines (cur ++ [c]) text'
  end.

Definition readlines (text : pystr) : list pystr := split_lines [] text.

Definition creatable (path : pystr) : bool :=
  negb (is_empty path) && forallb (λ a, negb (a =? ch "/")%N) path.

#[global] Instance directory : OS (gmap (list N) (list N)) := {|
  handle := list N;
  os_path_exists fs path := bool_decide (is_Some (fs !! path));
  os_open_r fs path :=
    match fs !! path with
    | Some _ => Ok path
    | None => Raise FileNotFoundError
    end;
  os_open_w fs path :=
    if bool_decide (is_Some (fs !! path)) || creatable path
    then (<[path := []]> fs, Ok path)
    else (fs, Raise FileNotFoundError);
  os_readlines fs f := Ok (readlines (default [] (fs !! f)));
  os_write fs f text := (<[f := default [] (fs !! f) ++ text]> fs, None);
  os_close fs f := (fs, None)
|}.

(** ** Notions used by the statements *)

#[global] Instance result_fmap : FMap result := λ A B f m,
  match m with
  | Ok a => Ok (f a)
  | Raise e => Raise e
  end.

(** [p in s] *)
Fixpoint contains (p s : pystr) : bool :=
  startswith p s ||
  match s with
  | _ :: s' => contains p s'
  | [] => false
  end.

(** The lazy group followed by a closing pair [c c], read off the text: the
    shortest run without a newline that the pair follows, and the text after
    the pair. *)
Fixpoint scan_close (c : pychar) (s : pystr) : option (pystr * pystr) :=
  match s with
  | [] => None
  | a :: s' =>
      if startswith [c; c] s then Some ([], drop 2 s)
      else if dot a then (λ '(x, rest), (a :: x, rest)) <$> scan_close c s'
      else None
  end.

(** A span [o o X c c] at the start of the text: [X] and the text after. *)
Definition match_delim (o c : pychar) (s : pystr) : option (pystr * pystr) :=
  match s with
  | a :: b :: s' => if (a =? o)%N && (b =? o)%N then scan_close c s' else None
  | _ => None
  end.

Definition delim_pattern (o c : ascii) : regex :=
  Lit o >> Lit o >> Grp 1 (Rep Lazy 0 None dot) >> Lit c >> Lit c.

(** A pattern whose matches do not depend on where the text starts. *)
Definition anchor_free (r : regex) : Prop :=
  ∀ w1 w2 s, match_here r w1 s = match_here r w2 s.

(** [c] does not occur in [s]. *)
Definition lacks (c : pychar) (s : pystr) : bool :=
  forallb (λ a, negb (a =? c)%N) s.

(** The characters that open an inline span. *)
Definition is_marker (a : pychar) : bool :=
  (a =? ch "*")%N || (a =? ch "_")%N || (a =? ch "[")%N || (a =? ch "(")%N.

(** Text without any character that opens a span. *)
Definition plain (s : pystr) : bool := forallb (λ a, negb (is_marker a)) s.

(** Text without a newline. *)
Definition single_line (s : pystr) : bool := forallb dot s.

(** [X] is the content a lazy group takes before the closing pair [c c]: the
    pair does not occur earlier, not even across the end of [X]. *)
Definition shortest (c : pychar) (X : pystr) : bool :=
  negb (contains [c; c] (X ++ [c])).

(** The four passes of [parse_inline_markdown]. *)
Definition pass_bold (text : pystr) : result pystr :=
  re_sub bold_pattern (fun m => Ok (py "<b>" ++ group 1 m ++ py "</b>")) text.
Definition pass_em (text : pystr) : result pystr :=
  re_sub em_pattern (fun m => Ok (py "<em>" ++ group 1 m ++ py "</em>")) text.
Definition pass_md5 (text : pystr) : result pystr :=
  re_sub md5_pattern (fun m => md5_hash (group 1 m)) text.
Definition pass_strip (text : pystr) : result pystr :=
  re_sub strip_pattern (fun m => remove_c (group 1 m)) text.

Definition is_hex (c : pychar) : bool :=
  ((48 <=? c) && (c <=? 57) || (97 <=? c) && (c <=? 102))%N.

(** The longest prefix whose elements satisfy [p]. *)
Fixpoint take_while {A} (p : A → bool) (l : list A) : list A :=
  match l with
  | a :: l' => if p a then a :: take_while p l' else []
  | [] => []
  end.

(** [n] respects the upper bound of a counted repetition. *)
Definition within (n : nat) (hi : option nat) : bool :=
  match hi with
  | Some h => n <=? h
  | None => true
  end.

(** What a heading line is made of, read off the text: the leading run of
    [#] (one to six of them), one whitespace character, and the content, a
    non-empty run without a newline that reaches the end of the line (or the
    newline that ends it). *)
Definition heading_parts (line : pystr) : option (pystr * pystr) :=
  let hashes := take_while (N.eqb (ch "#")) line in
  let n := length hashes in
  if (1 <=? n) && (n <=? 6) then
    match drop n line with
    | w :: s =>
        if isspace w then
          let content := take_while dot s in
          if 1 <=? length content then
            match drop (length content) s with
            | [] => Some (hashes, content)
            | [c] => if (c =? nl)%N then Some (hashes, content) else None
            | _ => None
            end
          else None
        else None
    | [] => None
    end
  else None.

(** The fragment [f"<h{level}>{content}</h{level}>\n"]. *)
Definition heading_html (level : nat) (content : pystr) : pystr :=
  py "<h" ++ str_of_nat level ++ py ">" ++ content
    ++ py "</h" ++ str_of_nat level ++ ln ">".

(** A heading line: one to six [#], one whitespace character [w], and a
    non-empty content without a newline. *)
Definition heading_form (t : pystr) (level : nat) (w : pychar) (content : pystr)
    : Prop :=
  1 ≤ level ≤ 6 ∧ isspace w = true ∧ content ≠ [] ∧ single_line content = true
  ∧ t = replicate level (ch "#") ++ w :: content.

(** The text of a list item: the line without its two-character marker,
    trimmed and transformed. *)
Definition item_of (line : pystr) : result pystr :=
  parse_inline_markdown (strip (drop 2 line)).

Definition li (item : pystr) : pystr := py "<li>" ++ item ++ py "</li>".

(** The two list loops differ in the marker only. *)
Fixpoint list_loop (marker : pystr) (lines : list pystr) (html_list : list pystr)
    : result (list pystr) :=
  match lines with
  | line :: lines' =>
      if startswith marker line then
        item ← item_of line;
        list_loop marker lines' (html_list ++ [li item])
      else Ok html_list
  | [] => Ok html_list
  end.

(** The fragment of a list: the opening tag, one line per item, the closing
    tag, each followed by a newline. *)
Definition list_html (open close : pystr) (items : list pystr) : pystr :=
  join_nl (open :: map li items ++ [close]) ++ [nl].

(** A line that is not blank. *)
Definition nonblank (line : pystr) : bool := negb (is_empty (strip line)).

(** What the paragraph loop appends for the transformed lines [texts], the
    first of which has index [i]: a [<br/>] before every line but the one of
    index 0. *)
Fixpoint para_body (i : nat) (texts : list pystr) : list pystr :=
  match texts with
  | [] => []
  | t :: texts' =>
      (if 0 <? i then [py "<br/>"] else []) ++ t :: para_body (S i) texts'
  end.

Definition para_html (texts : list pystr) : pystr :=
  join_nl (py "<p>" :: para_body 0 texts ++ [py "</p>"]) ++ [nl].

(** A code point that UTF-8 can encode: any but a surrogate. *)
Definition encodable (c : pychar) : bool :=
  ((c <? 0xD800) || (0xDFFF <? c) && (c <? 0x110000))%N.

(** Text as decoding a file yields it: encodable code points only. *)
Definition text_ok (s : pystr) : bool := forallb encodable s.

(** Text with none of the six delimiter pairs. *)
Definition no_markup (text : pystr) : bool :=
  negb (contains (py "**") text) && negb (contains (py "__") text)
  && negb (contains (py "[[") text) && negb (contains (py "]]") text)
  && negb (contains (py "((") text) && negb (contains (py "))") text).

(** The message for a missing input file. *)
Definition missing (input_file : pystr) : pystr :=
  py "Missing " ++ input_file ++ [nl].

(** The text an iteration writes; none for an iteration without a write. *)
Definition written (a : action) : pystr :=
  match a with
  | Write html => html
  | Skip => []
  end.

(** The fragments the loop hands to [html_file.write], in order, and the
    exception that ends the scan, if any, as long as the writes go
    through. *)
Fixpoint scan_frags (fuel : nat) (lines : list pystr) (i : nat)
    : option (list pystr * option exn) :=
  match fuel with
  | 0 => None
  | S fuel' =>
      if i <? length lines then
        match scan_action lines i with
        | Ok (Write html, i') =>
            (λ '(frs, e), (html :: frs, e)) <$> scan_frags fuel' lines i'
        | Ok (Skip, i') => scan_frags fuel' lines i'
        | Raise e => Some ([], Some e)
        end
      else Some ([], None)
  end.

(** Writing fragments one after the other, up to the first write that
    raises. *)
Fixpoint write_all `{OS world} (w : world) (f : handle) (frs : list pystr)
    : world * option exn :=
  match frs with
  | [] => (w, None)
  | fr :: frs' =>
      match os_write w f fr with
      | (w', None) => write_all w' f frs'
      | (w', Some e) => (w', Some e)
      end
  end.

(** The conversion goes through and leaves the world [w']: both files are
    opened, the lines are read after the output was opened, the scan of
    the lines raises nothing, its fragments, which make up the text [out],
    are written in order, and the two files are closed. *)
Definition converts `{OS world} (fuel : nat) (input_file output_file : pystr)
    (w w' : world) : Prop :=
  ∃ md_file html_file lines frs w1 w2 w3,
    os_open_r w input_file = Ok md_file
    ∧ os_open_w w output_file = (w1, Ok html_file)
    ∧ os_readlines w1 md_file = Ok lines
    ∧ scan_frags fuel lines 0 = Some (frs, None)
    ∧ scan fuel lines 0 [] = Some (concat frs, None)
    ∧ write_all w1 html_file frs = (w2, None)
    ∧ os_close w2 html_file = (w3, None)
    ∧ os_close w3 md_file = (w', None).

(** A property of the world that the calls by which a run may change it
    preserve: opening [output_file] for writing, writing to and closing the
    file object this returned, closing the file object of [input_file]. *)
Definition kept_by_run `{OS world} (input_file output_file : pystr) (w : world)
    (P : world → Prop) : Prop :=
  (P w → P (os_open_w w output_file).1)
  ∧ (∀ html_file w1 text,
       (os_open_w w output_file).2 = Ok html_file →
       P w1 → P (os_write w1 html_file text).1)
  ∧ (∀ html_file w1,
       (os_open_w w output_file).2 = Ok html_file →
       P w1 → P (os_close w1 html_file).1)
  ∧ (∀ md_file w1,
       os_open_r w input_file = Ok md_file →
       P w1 → P (os_close w1 md_file).1).

(** One substitution pass, said without a regular expression: going
    through the text from left to right, a span [o o X c c] whose content
    [X] is on one line and is the shortest possible is replaced by [f X] and
    the pass goes on after the span; a character at which no span starts is
    copied.  An exception of [f] ends the pass. *)
Inductive replaced (o c : pychar) (f : pystr → result pystr)
    : pystr → result pystr → Prop :=
| replaced_nil : replaced o c f [] (Ok [])
| replaced_span X rest r :
    single_line X = true → shortest c X = true →
    replaced o c f rest r →
    replaced o c f (o :: o :: X ++ c :: c :: rest)
      (out ← f X; tl ← r; Ok (out ++ tl))
| replaced_copy a s r :
    (∀ X rest, single_line X = true → a :: s ≠ o :: o :: X ++ c :: c :: rest) →
    replaced o c f s r →
    replaced o c f (a :: s) (tl ← r; Ok (a :: tl)).

(** * Verification *)

Arguments py : simpl never.
Arguments ch : simpl never.
Arguments strip : simpl never.
Arguments re_sub : simpl never.
Arguments md5_hash : simpl never.
Arguments remove_c : simpl never.
Arguments parse_inline_markdown : simpl never.
Arguments parse_headings : simpl never.
Arguments item_of : simpl never.
Arguments li : simpl never.
Arguments heading_html : simpl never.
Arguments leave_with : simpl never.

(** ** The matcher on the inline patterns *)

Lemma rep_lazy_unfold {A} p s (k : pystr → option A) :
  rep Lazy p 0 None s k =
  match k s with
  | Some r => Some r
  | None =>
      match s with
      | c :: s' => if p c then rep Lazy p 0 None s' k else None
      | [] => None
      end
  end.
Proof. destruct s; reflexivity. Qed.

Lemma take_length_app_diff (pre r : pystr) :
  take (length (pre ++ r) - length r) (pre ++ r) = pre.
Proof.
  rewrite length_app. replace (length pre + length r - length r) with (length pre) by lia.
  by rewrite take_app_length.
Qed.

Lemma close_pair c whole s caps :
  rmatch (Chr (N.eqb c) >> Chr (N.eqb c)) whole s caps
    (λ s'' caps', Some (s'', caps'))
  = if startswith [c; c] s then Some (drop 2 s, caps) else None.
Proof.
  destruct s as [|a [|b s']]; cbn.
  - reflexivity.
  - by destruct (c =? a)%N.
  - destruct (c =? a)%N; [|reflexivity]. by destruct (c =? b)%N.
Qed.

Lemma lazy_group_close c whole s0 caps :
  ∀ r pre, s0 = pre ++ r →
  rep Lazy dot 0 None r
    (λ s', rmatch (Chr (N.eqb c) >> Chr (N.eqb c)) whole s'
             ((1, take (length s0 - length s') s0) :: caps)
             (λ s'' caps', Some (s'', caps')))
  = (λ '(x, rest), (rest, (1, pre ++ x) :: caps)) <$> scan_close c r.
Proof.
  induction r as [|a r IH]; intros pre Hs0.
  - reflexivity.
  - rewrite rep_lazy_unfold. cbv beta. rewrite close_pair.
    cbn [scan_close]. destruct (startswith [c; c] (a :: r)).
    + rewrite Hs0, take_length_app_diff. cbn. by rewrite app_nil_r.
    + destruct (dot a); [|reflexivity].
      rewrite (IH (pre ++ [a])) by (by rewrite <- app_assoc).
      destruct (scan_close c r) as [[x rest]|]; cbn; [|done].
      by rewrite <- app_assoc.
Qed.

Lemma rmatch_lit_seq {A} o r whole s caps (k : pystr → captures → option A) :
  rmatch (Lit o >> r) whole s caps k =
  match s with
  | a :: s' => if (a =? ch o)%N then rmatch r whole s' caps k else None
  | [] => None
  end.
Proof. destruct s as [|a s']; cbn; [done|]. by rewrite (N.eqb_sym (ch o) a). Qed.

Lemma group_close_match c whole s caps :
  rmatch (Grp 1 (Rep Lazy 0 None dot) >> Lit c >> Lit c) whole s caps
    (λ s' caps', Some (s', caps'))
  = (λ '(x, rest), (rest, (1, x) :: caps)) <$> scan_close (ch c) s.
Proof. exact (lazy_group_close (ch c) whole s caps s [] eq_refl). Qed.

Lemma delim_match o c whole s :
  match_here (delim_pattern o c) whole s
  = (λ '(x, rest), (rest, [(1, x)])) <$> match_delim (ch o) (ch c) s.
Proof.
  unfold match_here, delim_pattern, match_delim.
  rewrite rmatch_lit_seq. destruct s as [|a s']; [done|].
  rewrite rmatch_lit_seq. destruct s' as [|b s'].
  - by destruct (a =? ch o)%N.
  - destruct (a =? ch o)%N; [|done]. destruct (b =? ch o)%N; [|done].
    apply group_close_match.
Qed.


Lemma startswith_pair_ext c a X post :
  startswith [c; c] (a :: X ++ c :: post) = startswith [c; c] (a :: X ++ [c]).
Proof. destruct X; reflexivity. Qed.

Lemma scan_close_app c s x rest :
  scan_close c s = Some (x, rest) → s = x ++ c :: c :: rest.
Proof.
  revert x rest. induction s as [|a s IH]; intros x rest; cbn [scan_close]; [done|].
  destruct (startswith [c; c] (a :: s)) eqn:E.
  - intros [= <- <-]. destruct s as [|b s]; cbn in E.
    + by rewrite andb_false_r in E.
    + apply andb_prop in E as [Ea E]. apply andb_prop in E as [Eb _].
      apply N.eqb_eq in Ea as <-, Eb as <-. reflexivity.
  - destruct (dot a); [|done].
    destruct (scan_close c s) as [[x' rest']|]; [|done].
    intros [= <- <-]. by rewrite (IH x' rest').
Qed.

Lemma scan_close_dot c s x rest :
  scan_close c s = Some (x, rest) → forallb dot x = true.
Proof.
  revert x rest. induction s as [|a s IH]; intros x rest; cbn [scan_close]; [done|].
  destruct (startswith [c; c] (a :: s)).
  - by intros [= <- <-].
  - destruct (dot a) eqn:Ea; [|done].
    destruct (scan_close c s) as [[x' rest']|]; [|done].
    intros [= <- <-]. cbn. rewrite Ea. eauto.
Qed.

(** The content of a span is found whenever it holds no newline and the
    closing pair does not occur earlier. *)
Lemma scan_close_shortest c X post :
  forallb dot X = true → contains [c; c] (X ++ [c]) = false →
  scan_close c (X ++ c :: c :: post) = Some (X, post).
Proof.
  induction X as [|a X IH]; intros Hdot Hc.
  - cbn. by rewrite N.eqb_refl.
  - cbn in Hdot. apply andb_prop in Hdot as [Ha Hdot].
    cbn [contains app] in Hc. apply orb_false_elim in Hc as [Hs Hc].
    cbn [scan_close app]. rewrite startswith_pair_ext, Hs, Ha.
    by rewrite IH.
Qed.


Lemma match_delim_app o c s x rest :
  match_delim o c s = Some (x, rest) → s = o :: o :: x ++ c :: c :: rest.
Proof.
  destruct s as [|a [|b s]]; cbn; try done.
  destruct (a =? o)%N eqn:Ea; [|done]. destruct (b =? o)%N eqn:Eb; [|done].
  apply N.eqb_eq in Ea as ->, Eb as ->. cbn.
  intros H. by rewrite (scan_close_app _ _ _ _ H).
Qed.

Lemma match_delim_shortest o c X post :
  forallb dot X = true → contains [c; c] (X ++ [c]) = false →
  match_delim o c (o :: o :: X ++ c :: c :: post) = Some (X, post).
Proof.
  intros. cbn. rewrite N.eqb_refl. cbn. by apply scan_close_shortest.
Qed.

Lemma match_delim_other o c a s : a ≠ o → match_delim o c (a :: s) = None.
Proof.
  intros Ha. destruct s as [|b s]; cbn; [done|].
  by apply N.eqb_neq in Ha as ->.
Qed.

Lemma match_delim_no_pair o c s :
  startswith [o; o] s = false → match_delim o c s = None.
Proof.
  destruct s as [|a [|b s]]; cbn; try done.
  rewrite (N.eqb_sym o a), (N.eqb_sym o b), andb_true_r. by intros ->.
Qed.

(** ** [re.sub] *)

Lemma sub_from_fuel r repl whole :
  ∀ n m s, length s < n → length s < m →
  sub_from n r repl whole s = sub_from m r repl whole s.
Proof.
  induction n as [|n IH]; intros m s Hn Hm; [lia|].
  destruct m as [|m]; [lia|].
  destruct s as [|c s]; [done|]. cbn [sub_from]. cbn [length] in Hn, Hm.
  destruct (match_here r whole (c :: s)) as [[rest caps]|].
  - destruct (length rest <? length (c :: s)) eqn:E.
    + apply Nat.ltb_lt in E. cbn [length] in E.
      by rewrite (IH m rest) by lia.
    + by rewrite (IH m s) by lia.
  - by rewrite (IH m s) by lia.
Qed.

Lemma sub_from_whole r repl w1 w2 :
  anchor_free r →
  ∀ n s, sub_from n r repl w1 s = sub_from n r repl w2 s.
Proof.
  intros Hr. induction n as [|n IH]; intros s; [done|].
  destruct s as [|c s]; [done|]. cbn [sub_from].
  rewrite (Hr w1 w2 (c :: s)).
  destruct (match_here r w2 (c :: s)) as [[rest caps]|].
  - destruct (length rest <? length (c :: s)); by rewrite IH.
  - by rewrite IH.
Qed.


Lemma re_sub_cons r repl c s :
  anchor_free r →
  re_sub r repl (c :: s) =
  match match_here r [] (c :: s) with
  | Some (rest, caps) =>
      if length rest <? length (c :: s) then
        out ← repl caps; tl ← re_sub r repl rest; Ok (out ++ tl)
      else tl ← re_sub r repl s; Ok (c :: tl)
  | None => tl ← re_sub r repl s; Ok (c :: tl)
  end.
Proof.
  intros Hr. unfold re_sub at 1. cbn [sub_from].
  rewrite (Hr (c :: s) [] (c :: s)).
  destruct (match_here r [] (c :: s)) as [[rest caps]|].
  - destruct (length rest <? length (c :: s)) eqn:E.
    + apply Nat.ltb_lt in E. cbn [length] in E.
      rewrite (sub_from_whole r repl (c :: s) rest Hr).
      by rewrite (sub_from_fuel r repl rest (length (c :: s)) (S (length rest)))
        by (cbn [length]; lia).
    + by rewrite (sub_from_whole r repl (c :: s) s Hr).
  - by rewrite (sub_from_whole r repl (c :: s) s Hr).
Qed.

Lemma delim_anchor_free o c : anchor_free (delim_pattern o c).
Proof. intros w1 w2 s. by rewrite !delim_match. Qed.

(** The three cases of a pass over a delimited span. *)
Lemma sub_delim_match o c repl s x rest :
  match_delim (ch o) (ch c) s = Some (x, rest) →
  re_sub (delim_pattern o c) repl s =
  out ← repl [(1, x)]; tl ← re_sub (delim_pattern o c) repl rest; Ok (out ++ tl).
Proof.
  intros H. pose proof (match_delim_app _ _ _ _ _ H) as Hs.
  destruct s as [|a s]; [done|].
  rewrite re_sub_cons by apply delim_anchor_free.
  rewrite delim_match, H. cbn [fmap option_fmap option_map].
  assert (length rest < length (a :: s)) as ->%Nat.ltb_lt; [|done].
  rewrite Hs. cbn. rewrite length_app. cbn. lia.
Qed.

Lemma sub_delim_skip o c repl a s :
  match_delim (ch o) (ch c) (a :: s) = None →
  re_sub (delim_pattern o c) repl (a :: s) =
  tl ← re_sub (delim_pattern o c) repl s; Ok (a :: tl).
Proof.
  intros H. rewrite re_sub_cons by apply delim_anchor_free.
  by rewrite delim_match, H.
Qed.

Lemma sub_delim_prefix o c repl pre s :
  lacks (ch o) pre = true →
  re_sub (delim_pattern o c) repl (pre ++ s)
  = (pre ++.) <$> re_sub (delim_pattern o c) repl s.
Proof.
  induction pre as [|a pre IH]; cbn [lacks forallb app]; intros H.
  - by destruct (re_sub _ _ s).
  - apply andb_prop in H as [Ha H]. apply negb_true_iff, N.eqb_neq in Ha.
    rewrite sub_delim_skip by (by apply match_delim_other).
    rewrite (IH H). by destruct (re_sub _ _ s).
Qed.

Lemma sub_delim_id o c repl s :
  contains [ch o; ch o] s = false → re_sub (delim_pattern o c) repl s = Ok s.
Proof.
  induction s as [|a s IH]; cbn [contains]; intros H; [done|].
  apply orb_false_elim in H as [Hs H].
  rewrite sub_delim_skip by (by apply match_delim_no_pair).
  by rewrite (IH H).
Qed.

Lemma sub_delim_span o c repl X post :
  single_line X = true → shortest (ch c) X = true →
  re_sub (delim_pattern o c) repl (ch o :: ch o :: X ++ ch c :: ch c :: post)
  = out ← repl [(1, X)]; tl ← re_sub (delim_pattern o c) repl post; Ok (out ++ tl).
Proof.
  intros Hl Hs. apply negb_true_iff in Hs.
  by apply sub_delim_match, match_delim_shortest.
Qed.

Lemma lacks_app c s1 s2 : lacks c (s1 ++ s2) = lacks c s1 && lacks c s2.
Proof. apply forallb_app. Qed.

Lemma lacks_shortest c X : lacks c X = true → shortest c X = true.
Proof.
  unfold shortest. intros H. apply negb_true_iff.
  induction X as [|a X IH]; cbn in *.
  - by rewrite andb_false_r.
  - apply andb_prop in H as [Ha H]. rewrite (IH H), orb_false_r.
    rewrite (N.eqb_sym c a). apply negb_true_iff in Ha. by rewrite Ha.
Qed.

Lemma plain_lacks s c : is_marker c = true → plain s = true → lacks c s = true.
Proof.
  intros Hc. induction s as [|a s IH]; cbn [plain lacks forallb]; [done|].
  intros [Ha H]%andb_prop. apply andb_true_intro. split; [|by apply IH].
  apply negb_true_iff, N.eqb_neq. intros ->. by rewrite Hc in Ha.
Qed.

(** ** [remove_c] keeps every other character *)

Lemma remove_c_filter text :
  remove_c text = Ok (List.filter (λ a, negb (is_c a)) text).
Proof.
  unfold remove_c. induction text as [|a text IH]; [done|].
  rewrite re_sub_cons by done. unfold match_here. cbn [rmatch length List.filter].
  destruct (is_c a) eqn:Ea.
  - assert ((length text <? S (length text)) = true) as -> by (apply Nat.ltb_lt; lia).
    by rewrite IH.
  - by rewrite IH.
Qed.

(** ** The digest is thirty-two lowercase hexadecimal digits *)

Lemma le_bytes_length n x : length (MD5.le_bytes n x) = n.
Proof. revert x. induction n as [|n IH]; intros x; cbn; [done|]. by rewrite IH. Qed.

Lemma le_bytes_byte n x : Forall (λ b, (b < 256)%N) (MD5.le_bytes n x).
Proof.
  revert x. induction n as [|n IH]; intros x; cbn; constructor; [|done].
  by apply N.mod_lt.
Qed.

Lemma digest_length msg : length (MD5.digest msg) = 16.
Proof.
  unfold MD5.digest. destruct (foldl _ _ _) as [[[a b] c] d].
  by rewrite !length_app, !le_bytes_length.
Qed.

Lemma digest_byte msg : Forall (λ b, (b < 256)%N) (MD5.digest msg).
Proof.
  unfold MD5.digest. destruct (foldl _ _ _) as [[[a b] c] d].
  rewrite !Forall_app. repeat split; apply le_bytes_byte.
Qed.

Lemma hexdigit_hex x : (x < 16)%N → is_hex (MD5.hexdigit x) = true.
Proof.
  intros Hx. unfold MD5.hexdigit, is_hex.
  destruct (x <? 10)%N eqn:E.
  - apply N.ltb_lt in E. apply orb_true_iff. left.
    apply andb_true_iff. split; apply N.leb_le; lia.
  - apply N.ltb_ge in E. apply orb_true_iff. right.
    apply andb_true_iff. split; apply N.leb_le; lia.
Qed.

Lemma hexdigest_length msg : length (MD5.hexdigest msg) = 32.
Proof.
  unfold MD5.hexdigest. pose proof (digest_length msg) as H.
  replace 32 with (2 * 16) by done. rewrite <- H. clear H.
  induction (MD5.digest msg) as [|b l IH]; [done|].
  cbn [flat_map app length]. rewrite IH. lia.
Qed.

Lemma hexdigest_hex msg : forallb is_hex (MD5.hexdigest msg) = true.
Proof.
  unfold MD5.hexdigest. pose proof (digest_byte msg) as H.
  induction H as [|b l Hb H IH]; [done|].
  cbn [flat_map app forallb]. rewrite IH, andb_true_r.
  rewrite !hexdigit_hex; [done| |].
  - by apply N.mod_lt.
  - apply N.Div0.div_lt_upper_bound. lia.
Qed.

Lemma hex_lacks c s :
  is_hex c = false → forallb is_hex s = true → lacks c s = true.
Proof.
  intros Hc. induction s as [|a s IH]; cbn [lacks forallb]; [done|].
  intros [Ha H]%andb_prop. apply andb_true_intro. split; [|by apply IH].
  apply negb_true_iff, N.eqb_neq. intros ->. by rewrite Hc in Ha.
Qed.

(** ** The passes of the inline transformer *)

Lemma fmap_Ok {A B} (f : A → B) a : f <$> Ok a = Ok (f a).
Proof. reflexivity. Qed.

Lemma bind_Ok {A B} (f : A → result B) a : Ok a ≫= f = f a.
Proof. reflexivity. Qed.

Lemma parse_inline_passes text :
  parse_inline_markdown text =
  t1 ← pass_bold text; t2 ← pass_em t1; t3 ← pass_md5 t2; pass_strip t3.
Proof.
  unfold parse_inline_markdown, pass_bold, pass_em, pass_md5, pass_strip.
  destruct (re_sub bold_pattern _ text) as [t1|]; [|done]. rewrite !bind_Ok.
  destruct (re_sub em_pattern _ t1) as [t2|]; [|done]. rewrite !bind_Ok.
  destruct (re_sub md5_pattern _ t2) as [t3|]; [|done]. rewrite !bind_Ok.
  by destruct (re_sub strip_pattern _ t3).
Qed.

Lemma pass_bold_prefix pre s :
  lacks (ch "*") pre = true → pass_bold (pre ++ s) = (pre ++.) <$> pass_bold s.
Proof. apply (sub_delim_prefix "*" "*"). Qed.

Lemma pass_em_prefix pre s :
  lacks (ch "_") pre = true → pass_em (pre ++ s) = (pre ++.) <$> pass_em s.
Proof. apply (sub_delim_prefix "_" "_"). Qed.

Lemma pass_md5_prefix pre s :
  lacks (ch "[") pre = true → pass_md5 (pre ++ s) = (pre ++.) <$> pass_md5 s.
Proof. apply (sub_delim_prefix "[" "]"). Qed.

Lemma pass_strip_prefix pre s :
  lacks (ch "(") pre = true → pass_strip (pre ++ s) = (pre ++.) <$> pass_strip s.
Proof. apply (sub_delim_prefix "(" ")"). Qed.

Lemma pass_bold_span X post :
  single_line X = true → shortest (ch "*") X = true →
  pass_bold (py "**" ++ X ++ py "**" ++ post)
  = (λ r, py "<b>" ++ X ++ py "</b>" ++ r) <$> pass_bold post.
Proof.
  intros Hl Hs. unfold pass_bold.
  rewrite (sub_delim_span "*" "*" _ X post Hl Hs). rewrite bind_Ok.
  destruct (re_sub _ _ post); [|done]. cbn. by rewrite <- !app_assoc.
Qed.

Lemma pass_em_span X post :
  single_line X = true → shortest (ch "_") X = true →
  pass_em (py "__" ++ X ++ py "__" ++ post)
  = (λ r, py "<em>" ++ X ++ py "</em>" ++ r) <$> pass_em post.
Proof.
  intros Hl Hs. unfold pass_em.
  rewrite (sub_delim_span "_" "_" _ X post Hl Hs). rewrite bind_Ok.
  destruct (re_sub _ _ post); [|done]. cbn. by rewrite <- !app_assoc.
Qed.

Lemma pass_md5_span X post :
  single_line X = true → shortest (ch "]") X = true →
  pass_md5 (py "[[" ++ X ++ py "]]" ++ post)
  = d ← md5_hash X; (d ++.) <$> pass_md5 post.
Proof.
  intros Hl Hs. unfold pass_md5.
  rewrite (sub_delim_span "[" "]" _ X post Hl Hs). cbn [group Nat.eqb].
  destruct (md5_hash X); [|done]. rewrite !bind_Ok.
  by destruct (re_sub _ _ post).
Qed.

Lemma pass_strip_span X post :
  single_line X = true → shortest (ch ")") X = true →
  pass_strip (py "((" ++ X ++ py "))" ++ post)
  = (List.filter (λ a, negb (is_c a)) X ++.) <$> pass_strip post.
Proof.
  intros Hl Hs. unfold pass_strip.
  rewrite (sub_delim_span "(" ")" _ X post Hl Hs). cbn [group Nat.eqb].
  rewrite remove_c_filter, bind_Ok.
  by destruct (re_sub _ _ post).
Qed.

Lemma pass_bold_id s : contains (py "**") s = false → pass_bold s = Ok s.
Proof. apply (sub_delim_id "*" "*"). Qed.

Lemma pass_em_id s : contains (py "__") s = false → pass_em s = Ok s.
Proof. apply (sub_delim_id "_" "_"). Qed.

Lemma pass_md5_id s : contains (py "[[") s = false → pass_md5 s = Ok s.
Proof. apply (sub_delim_id "[" "]"). Qed.

Lemma pass_strip_id s : contains (py "((") s = false → pass_strip s = Ok s.
Proof. apply (sub_delim_id "(" ")"). Qed.

(** A pass whose replacement never raises never raises. *)
Lemma sub_from_total r repl whole :
  (∀ caps, ∃ out, repl caps = Ok out) →
  ∀ n s, ∃ t, sub_from n r repl whole s = Ok t.
Proof.
  intros Hrepl. induction n as [|n IH]; intros s; [by eexists|].
  destruct s as [|c s]; [by eexists|]. cbn [sub_from].
  destruct (IH s) as [t Ht].
  destruct (match_here r whole (c :: s)) as [[rest caps]|].
  - destruct (length rest <? length (c :: s)).
    + destruct (Hrepl caps) as [out ->]. destruct (IH rest) as [t' ->].
      by eexists.
    + rewrite Ht. by eexists.
  - rewrite Ht. by eexists.
Qed.

Lemma pass_bold_total s : ∃ t, pass_bold s = Ok t.
Proof. apply sub_from_total. intros caps. by eexists. Qed.

Lemma pass_em_total s : ∃ t, pass_em s = Ok t.
Proof. apply sub_from_total. intros caps. by eexists. Qed.

Lemma pass_strip_total s : ∃ t, pass_strip s = Ok t.
Proof.
  apply sub_from_total. intros caps. rewrite remove_c_filter. by eexists.
Qed.

Lemma regroup (pre a X b s : pystr) :
  pre ++ a ++ X ++ b ++ s = (pre ++ a ++ X ++ b) ++ s.
Proof. by rewrite <- !app_assoc. Qed.

Ltac lacks_tac :=
  rewrite ?lacks_app;
  repeat (apply andb_true_intro; split);
  first [ reflexivity
        | apply plain_lacks; [reflexivity | assumption]
        | apply hex_lacks; [reflexivity | apply hexdigest_hex] ].

Lemma passes_from_strip P s :
  lacks (ch "(") P = true →
  pass_strip (P ++ s) = (P ++.) <$> pass_strip s.
Proof. apply pass_strip_prefix. Qed.

Lemma passes_from_md5 P s :
  lacks (ch "[") P = true → lacks (ch "(") P = true →
  (t3 ← pass_md5 (P ++ s); pass_strip t3)
  = (P ++.) <$> (t3 ← pass_md5 s; pass_strip t3).
Proof.
  intros H3 H4. rewrite pass_md5_prefix by done.
  destruct (pass_md5 s) as [t3|]; [|done].
  rewrite fmap_Ok, !bind_Ok. by apply passes_from_strip.
Qed.

Lemma passes_from_em P s :
  lacks (ch "_") P = true → lacks (ch "[") P = true → lacks (ch "(") P = true →
  (t2 ← pass_em (P ++ s); t3 ← pass_md5 t2; pass_strip t3)
  = (P ++.) <$> (t2 ← pass_em s; t3 ← pass_md5 t2; pass_strip t3).
Proof.
  intros H2 H3 H4. rewrite pass_em_prefix by done.
  destruct (pass_em s) as [t2|]; [|done].
  rewrite fmap_Ok, !bind_Ok. by apply passes_from_md5.
Qed.

Lemma inline_bold pre X post :
  plain pre = true → plain X = true → single_line X = true →
  parse_inline_markdown (pre ++ py "**" ++ X ++ py "**" ++ post)
  = (λ r, pre ++ py "<b>" ++ X ++ py "</b>" ++ r) <$> parse_inline_markdown post.
Proof.
  intros Hpre HX Hl. rewrite !parse_inline_passes.
  rewrite pass_bold_prefix by lacks_tac.
  rewrite pass_bold_span by (try apply lacks_shortest; first [done | lacks_tac]).
  destruct (pass_bold post) as [p1|]; [|done]. rewrite !fmap_Ok, !bind_Ok.
  rewrite regroup, passes_from_em by lacks_tac.
  destruct (_ ≫= _) as [r|]; [|done]. rewrite !fmap_Ok. by rewrite <- ?app_assoc.
Qed.

Lemma inline_em pre X post :
  plain pre = true → plain X = true → single_line X = true →
  parse_inline_markdown (pre ++ py "__" ++ X ++ py "__" ++ post)
  = (λ r, pre ++ py "<em>" ++ X ++ py "</em>" ++ r) <$> parse_inline_markdown post.
Proof.
  intros Hpre HX Hl. rewrite !parse_inline_passes.
  rewrite regroup, pass_bold_prefix by lacks_tac.
  destruct (pass_bold post) as [p1|]; [|done]. rewrite !fmap_Ok, !bind_Ok.
  rewrite <- regroup, pass_em_prefix by lacks_tac.
  rewrite pass_em_span by (try apply lacks_shortest; first [done | lacks_tac]).
  destruct (pass_em p1) as [p2|]; [|done]. rewrite !fmap_Ok, !bind_Ok.
  rewrite regroup, passes_from_md5 by lacks_tac.
  destruct (_ ≫= _) as [r|]; [|done]. rewrite !fmap_Ok. by rewrite <- ?app_assoc.
Qed.

Lemma inline_md5 pre X post :
  plain pre = true → plain X = true → single_line X = true →
  shortest (ch "]") X = true →
  parse_inline_markdown (pre ++ py "[[" ++ X ++ py "]]" ++ post)
  = d ← md5_hash X; (λ r, pre ++ d ++ r) <$> parse_inline_markdown post.
Proof.
  intros Hpre HX Hl Hs. rewrite !parse_inline_passes.
  rewrite regroup, pass_bold_prefix by lacks_tac.
  destruct (pass_bold_total post) as [p1 ->]. rewrite !fmap_Ok, !bind_Ok.
  rewrite pass_em_prefix by lacks_tac.
  destruct (pass_em_total p1) as [p2 ->]. rewrite !fmap_Ok, !bind_Ok.
  rewrite <- regroup, pass_md5_prefix by lacks_tac.
  rewrite pass_md5_span by done. unfold md5_hash.
  destruct (encode X) as [bs|]; [|done]. rewrite !bind_Ok.
  destruct (pass_md5 p2) as [p3|]; [|done]. rewrite !fmap_Ok, !bind_Ok.
  rewrite app_assoc, passes_from_strip by lacks_tac.
  destruct (pass_strip p3) as [r|]; [|done]. rewrite !fmap_Ok. by rewrite <- ?app_assoc.
Qed.

Lemma inline_strip pre X post :
  plain pre = true → plain X = true → single_line X = true →
  shortest (ch ")") X = true →
  parse_inline_markdown (pre ++ py "((" ++ X ++ py "))" ++ post)
  = (λ r, pre ++ List.filter (λ a, negb (is_c a)) X ++ r)
      <$> parse_inline_markdown post.
Proof.
  intros Hpre HX Hl Hs. rewrite !parse_inline_passes.
  rewrite regroup, pass_bold_prefix by lacks_tac.
  destruct (pass_bold post) as [p1|]; [|done]. rewrite !fmap_Ok, !bind_Ok.
  rewrite pass_em_prefix by lacks_tac.
  destruct (pass_em p1) as [p2|]; [|done]. rewrite !fmap_Ok, !bind_Ok.
  rewrite pass_md5_prefix by lacks_tac.
  destruct (pass_md5 p2) as [p3|]; [|done]. rewrite !fmap_Ok, !bind_Ok.
  rewrite <- regroup, pass_strip_prefix by lacks_tac.
  rewrite pass_strip_span by done.
  destruct (pass_strip p3) as [r|]; [|done]. rewrite !fmap_Ok. by rewrite <- ?app_assoc.
Qed.

Lemma inline_id text :
  contains (py "**") text = false → contains (py "__") text = false →
  contains (py "[[") text = false → contains (py "((") text = false →
  parse_inline_markdown text = Ok text.
Proof.
  intros H1 H2 H3 H4. rewrite parse_inline_passes.
  rewrite pass_bold_id, bind_Ok by done. rewrite pass_em_id, bind_Ok by done.
  rewrite pass_md5_id, bind_Ok by done. by apply pass_strip_id.
Qed.

(** ** The matcher on the heading pattern *)

Lemma take_while_prefix {A} (p : A → bool) l :
  take (length (take_while p l)) l = take_while p l.
Proof.
  induction l as [|a l IH]; cbn; [done|].
  destruct (p a); cbn; [|done]. by rewrite IH.
Qed.

Lemma take_while_length {A} (p : A → bool) l :
  length (take_while p l) ≤ length l.
Proof.
  induction l as [|a l IH]; cbn; [done|]. destruct (p a); cbn; lia.
Qed.

Lemma take_while_split {A} (p : A → bool) l :
  l = take_while p l ++ drop (length (take_while p l)) l.
Proof.
  induction l as [|a l IH]; cbn; [done|].
  destruct (p a); cbn; [|done]. by rewrite <- IH.
Qed.

Lemma take_while_all {A} (p : A → bool) l : forallb p (take_while p l) = true.
Proof.
  induction l as [|a l IH]; cbn; [done|].
  destruct (p a) eqn:E; cbn; [|done]. by rewrite E.
Qed.

Lemma take_while_stop {A} (p : A → bool) l a l' :
  drop (length (take_while p l)) l = a :: l' → p a = false.
Proof.
  induction l as [|b l IH]; cbn; [done|].
  destruct (p b) eqn:E; cbn; [done|]. by intros [= <- <-].
Qed.

Lemma take_group_run (p : pychar → bool) (s : pystr) :
  take (length s - length (drop (length (take_while p s)) s)) s = take_while p s.
Proof.
  rewrite length_drop. pose proof (take_while_length p s).
  replace (length s - (length s - length (take_while p s)))
    with (length (take_while p s)) by lia.
  apply take_while_prefix.
Qed.

(** A greedy repetition in front of something that cannot start with a
    character of the class takes the whole run, or fails. *)
Lemma rep_greedy_run {A} p (k : pystr → option A) :
  (∀ c s', p c = true → k (c :: s') = None) →
  ∀ s lo hi,
    rep Greedy p lo hi s k =
    let n := length (take_while p s) in
    if (lo <=? n) && within n hi then k (drop n s) else None.
Proof.
  intros Hk. induction s as [|c s IH]; intros lo hi.
  - cbn. destruct lo, hi; reflexivity.
  - cbn [rep take_while]. destruct (p c) eqn:Ec.
    + rewrite andb_true_r. cbn [length drop]. rewrite (Hk c s Ec).
      destruct (can_take hi) eqn:Eh.
      * rewrite IH. cbv zeta.
        assert ((pred lo <=? length (take_while p s))
                = (lo <=? S (length (take_while p s)))) as -> by (by destruct lo).
        assert (within (length (take_while p s)) (pred <$> hi)
                = within (S (length (take_while p s))) hi) as ->.
        { destruct hi as [[|h]|]; done. }
        destruct (_ && _); [|by destruct lo].
        destruct (k _); [done|]. by destruct lo.
      * destruct hi as [[|h]|]; try done. cbn [within].
        rewrite andb_false_r. by destruct lo.
    + rewrite andb_false_r. cbn [length drop].
      destruct lo; [|done]. by destruct hi.
Qed.

Lemma rmatch_bol_seq {A} r whole s caps (k : pystr → captures → option A) :
  rmatch (Bol >> r) whole s caps k =
  if length s =? length whole then rmatch r whole s caps k else None.
Proof. reflexivity. Qed.

Lemma rmatch_grp_rep_seq {A} n g lo hi p r whole s caps
    (k : pystr → captures → option A) :
  rmatch (Grp n (Rep g lo hi p) >> r) whole s caps k =
  rep g p lo hi s
    (λ s', rmatch r whole s' ((n, take (length s - length s') s) :: caps) k).
Proof. reflexivity. Qed.

Lemma rmatch_chr_seq {A} p r whole s caps (k : pystr → captures → option A) :
  rmatch (Chr p >> r) whole s caps k =
  match s with
  | c :: s' => if p c then rmatch r whole s' caps k else None
  | [] => None
  end.
Proof. reflexivity. Qed.

Lemma rmatch_eol {A} whole s caps (k : pystr → captures → option A) :
  rmatch Eol whole s caps k =
  match s with
  | [] => k s caps
  | [c] => if (c =? nl)%N then k s caps else None
  | _ => None
  end.
Proof. reflexivity. Qed.

Lemma heading_match line :
  re_match heading_pattern line
  = (λ '(h, c), [(2, c); (1, h)]) <$> heading_parts line.
Proof.
  unfold re_match, match_here, heading_pattern, heading_parts.
  rewrite rmatch_bol_seq, Nat.eqb_refl, rmatch_grp_rep_seq.
  rewrite rep_greedy_run.
  2:{ intros c s' Hc. apply N.eqb_eq in Hc as <-. reflexivity. }
  cbv zeta. rewrite take_group_run.
  set (hashes := take_while (N.eqb (ch "#")) line).
  assert ((1 <=? length hashes) && within (length hashes) (Some 6)
          = (1 <=? length hashes) && (length hashes <=? 6)) as -> by done.
  destruct (_ && _); [|done].
  rewrite rmatch_chr_seq.
  destruct (drop (length hashes) line) as [|w s]; [done|].
  destruct (isspace w); [|done].
  assert (∀ caps,
    rmatch (Grp 2 (Rep Greedy 1 None dot) >> Eol) line s caps
      (λ s' caps', Some (s', caps'))
    = rep Greedy dot 1 None s
        (λ s', rmatch Eol line s' ((2, take (length s - length s') s) :: caps)
                 (λ s'' caps', Some (s'', caps')))) as -> by done.
  rewrite rep_greedy_run.
  2:{ intros c [|c' s'] Hc; rewrite rmatch_eol; [|done].
      unfold dot in Hc. apply negb_true_iff in Hc. by rewrite Hc. }
  cbv zeta. rewrite take_group_run, andb_true_r.
  destruct (1 <=? _); [|done]. rewrite rmatch_eol.
  destruct (drop _ s) as [|c [|c' s']]; [done| |done].
  by destruct (c =? nl)%N.
Qed.

(** ** Trimming *)

Lemma lstrip_head s c s' : lstrip s = c :: s' → isspace c = false.
Proof.
  induction s as [|a s IH]; cbn; [done|].
  destruct (isspace a) eqn:E; [done|]. by intros [= <- <-].
Qed.

Lemma lstrip_snoc s c : isspace c = false → ∃ s', lstrip (s ++ [c]) = s' ++ [c].
Proof.
  intros Hc. induction s as [|a s [s' IH]]; cbn.
  - rewrite Hc. by exists [].
  - destruct (isspace a); [by exists s'|]. by exists (a :: s).
Qed.

Lemma strip_last t s c : strip t = s ++ [c] → isspace c = false.
Proof.
  unfold strip, rstrip. intros H.
  apply (f_equal reverse) in H. rewrite reverse_involutive, reverse_snoc in H.
  by apply lstrip_head in H.
Qed.

Lemma strip_head t c s : strip t = c :: s → isspace c = false.
Proof.
  unfold strip, rstrip. intros H.
  destruct (lstrip t) as [|a u] eqn:E; [done|].
  pose proof (lstrip_head _ _ _ E) as Ha.
  rewrite reverse_cons in H.
  destruct (lstrip_snoc (reverse u) a Ha) as [s' Hs']. rewrite Hs' in H.
  rewrite reverse_snoc in H. by injection H as <- _.
Qed.

Lemma strip_cons c s : isspace c = false → ∃ s', strip (c :: s) = c :: s'.
Proof.
  intros Hc. unfold strip, rstrip. cbn [lstrip]. rewrite Hc, reverse_cons.
  destruct (lstrip_snoc (reverse s) c Hc) as [s' ->].
  rewrite reverse_snoc. by eexists.
Qed.

(** ** Headings *)

Lemma take_while_replicate (p : pychar → bool) n c s :
  p c = true → (∀ a s', s = a :: s' → p a = false) →
  take_while p (replicate n c ++ s) = replicate n c.
Proof.
  intros Hc Hs. induction n as [|n IH]; cbn.
  - destruct s as [|a s']; [done|]. cbn. by rewrite (Hs a s' eq_refl).
  - by rewrite Hc, IH.
Qed.

Lemma take_while_eqb c s :
  take_while (N.eqb c) s = replicate (length (take_while (N.eqb c) s)) c.
Proof.
  induction s as [|a s IH]; cbn; [done|].
  destruct (c =? a)%N eqn:E; cbn; [|done].
  apply N.eqb_eq in E as <-. by rewrite <- IH.
Qed.

Lemma take_while_id {A} (p : A → bool) l : forallb p l = true → take_while p l = l.
Proof.
  induction l as [|a l IH]; cbn; [done|].
  intros [Ha H]%andb_prop. by rewrite Ha, IH.
Qed.

Lemma heading_parts_form t level w content :
  heading_form t level w content →
  heading_parts t = Some (replicate level (ch "#"), content).
Proof.
  intros ([Hl1 Hl6] & Hw & Hc & Hline & ->). unfold heading_parts.
  rewrite take_while_replicate; [|apply N.eqb_refl|].
  2:{ intros a s' [= <- <-]. apply N.eqb_neq. intros <-. done. }
  rewrite length_replicate.
  assert ((1 <=? level) && (level <=? 6) = true) as ->.
  { apply andb_true_intro. split; by apply Nat.leb_le. }
  rewrite drop_app_length' by (by rewrite length_replicate).
  rewrite Hw. unfold single_line in Hline. rewrite (take_while_id _ _ Hline).
  assert ((1 <=? length content) = true) as ->.
  { apply Nat.leb_le. destruct content; [done|]. cbn. lia. }
  by rewrite drop_all.
Qed.

Lemma heading_parts_trimmed raw h c :
  heading_parts (strip raw) = Some (h, c) →
  ∃ w, heading_form (strip raw) (length h) w c ∧ h = replicate (length h) (ch "#").
Proof.
  unfold heading_parts. set (t := strip raw).
  set (hashes := take_while (N.eqb (ch "#")) t).
  destruct ((1 <=? length hashes) && (length hashes <=? 6)) eqn:En; [|done].
  apply andb_prop in En as [E1%Nat.leb_le E6%Nat.leb_le].
  destruct (drop (length hashes) t) as [|w s] eqn:Ed; [done|].
  destruct (isspace w) eqn:Ew; [|done].
  set (content := take_while dot s).
  destruct (1 <=? length content) eqn:Ec; [|done]. apply Nat.leb_le in Ec.
  pose proof (take_while_split (N.eqb (ch "#")) t) as Ht.
  fold hashes in Ht. rewrite Ed in Ht.
  pose proof (take_while_split dot s) as Hs. fold content in Hs.
  pose proof (take_while_eqb (ch "#") t) as Hh. fold hashes in Hh.
  assert (content ≠ []) as Hne by (intros E; rewrite E in Ec; cbn in Ec; lia).
  destruct (drop (length content) s) as [|a [|a' s']] eqn:Es; [| |done].
  - intros [= <- <-]. exists w. split; [|done].
    split; [done|]. split; [done|]. split; [done|].
    split; [apply take_while_all|].
    rewrite app_nil_r in Hs. by rewrite <- Hh, <- Hs.
  - destruct (a =? nl)%N eqn:Ea; [|done]. apply N.eqb_eq in Ea as ->.
    intros _. exfalso.
    assert (strip raw = (hashes ++ w :: content) ++ [nl]) as Hlast.
    { fold t. rewrite Ht, Hs at 1. by rewrite <- app_assoc. }
    by apply strip_last in Hlast.
Qed.

Lemma parse_headings_form t level w content :
  heading_form t level w content →
  parse_headings t
  = c ← parse_inline_markdown content; Ok (Some (heading_html level c)).
Proof.
  intros H. unfold parse_headings.
  rewrite heading_match, (heading_parts_form _ _ _ _ H).
  cbn [fmap option_fmap option_map group Nat.eqb].
  by rewrite length_replicate.
Qed.

Lemma parse_headings_other raw :
  (∀ level w content, ¬ heading_form (strip raw) level w content) →
  parse_headings (strip raw) = Ok None.
Proof.
  intros H. unfold parse_headings. rewrite heading_match.
  destruct (heading_parts (strip raw)) as [[h c]|] eqn:E; [|done].
  apply heading_parts_trimmed in E as (w & Hf & _). by destruct (H _ _ _ Hf).
Qed.

(** ** Lists *)

Lemma mapM_length {A B} (f : A → result B) l k :
  mapM f l = Ok k → length k = length l.
Proof.
  revert k. induction l as [|x l IH]; intros k; cbn.
  - by intros [= <-].
  - destruct (f x) as [y|]; [|done]. cbn.
    destruct (mapM f l) as [k'|]; [|done]. cbn.
    intros [= <-]. cbn. by rewrite (IH k').
Qed.

Lemma list_loop_spec marker lines :
  ∀ html_list,
    list_loop marker lines html_list =
    items ← mapM item_of (take_while (startswith marker) lines);
    Ok (html_list ++ map li items).
Proof.
  induction lines as [|line lines IH]; intros html_list; cbn.
  - by rewrite app_nil_r.
  - destruct (startswith marker line); cbn; [|by rewrite app_nil_r].
    destruct (item_of line) as [item|]; [|done]. cbn.
    rewrite IH. destruct (mapM item_of _) as [items|]; [|done]. cbn.
    by rewrite <- app_assoc.
Qed.

Lemma ul_loop_eq lines :
  ∀ html_list, ul_loop lines html_list = list_loop (py "- ") lines html_list.
Proof.
  induction lines as [|line lines IH]; intros html_list; cbn [ul_loop list_loop];
    [done|].
  destruct (startswith (py "- ") line); [|done]. unfold item_of.
  destruct (parse_inline_markdown _); [|done]. apply IH.
Qed.

Lemma ol_loop_eq lines :
  ∀ html_list, ol_loop lines html_list = list_loop (py "* ") lines html_list.
Proof.
  induction lines as [|line lines IH]; intros html_list; cbn [ol_loop list_loop];
    [done|].
  destruct (startswith (py "* ") line); [|done]. unfold item_of.
  destruct (parse_inline_markdown _); [|done]. apply IH.
Qed.

Lemma list_count (open close : pystr) (items : list pystr) :
  length (([open] ++ map li items) ++ [close]) - 2 = length items.
Proof. rewrite !length_app. cbn. rewrite length_map. lia. Qed.

Lemma parse_unordered_list_spec line lines :
  startswith (py "- ") line = true →
  parse_unordered_list (line :: lines) =
  items ← mapM item_of (take_while (startswith (py "- ")) (line :: lines));
  Ok (Some (list_html (py "<ul>") (py "</ul>") items, length items)).
Proof.
  intros H. unfold parse_unordered_list. rewrite H. cbn [negb].
  rewrite ul_loop_eq, list_loop_spec.
  destruct (mapM item_of _) as [items|]; [|done]. rewrite !bind_Ok.
  by rewrite list_count.
Qed.

Lemma parse_ordered_list_spec line lines :
  startswith (py "* ") line = true →
  parse_ordered_list (line :: lines) =
  items ← mapM item_of (take_while (startswith (py "* ")) (line :: lines));
  Ok (Some (list_html (py "<ol>") (py "</ol>") items, length items)).
Proof.
  intros H. unfold parse_ordered_list. rewrite H. cbn [negb].
  rewrite ol_loop_eq, list_loop_spec.
  destruct (mapM item_of _) as [items|]; [|done]. rewrite !bind_Ok.
  by rewrite list_count.
Qed.

Lemma parse_unordered_list_other lines :
  (∀ line rest, lines = line :: rest → startswith (py "- ") line = false) →
  parse_unordered_list lines = Ok None.
Proof.
  intros H. destruct lines as [|line rest]; [done|].
  unfold parse_unordered_list. by rewrite (H line rest eq_refl).
Qed.

Lemma parse_ordered_list_other lines :
  (∀ line rest, lines = line :: rest → startswith (py "* ") line = false) →
  parse_ordered_list lines = Ok None.
Proof.
  intros H. destruct lines as [|line rest]; [done|].
  unfold parse_ordered_list. by rewrite (H line rest eq_refl).
Qed.

(** ** Paragraphs *)

Lemma para_loop_spec lines :
  ∀ i html_para,
    para_loop i lines html_para =
    texts ← mapM (λ l, parse_inline_markdown (strip l)) (take_while nonblank lines);
    Ok (html_para ++ para_body i texts).
Proof.
  induction lines as [|line lines IH]; intros i html_para; cbn.
  - by rewrite app_nil_r.
  - unfold nonblank at 1. destruct (is_empty (strip line)); cbn;
      [by rewrite app_nil_r|].
    destruct (parse_inline_markdown (strip line)) as [text|]; [|done]. cbn.
    rewrite IH. destruct (mapM _ _) as [texts|]; [|done]. cbn.
    destruct i; cbn; by rewrite <- ?app_assoc.
Qed.

Lemma para_body_length texts :
  ∀ i, length (para_body i texts)
       = 2 * length texts - (if 0 <? i then 0 else 1).
Proof.
  induction texts as [|t texts IH]; intros i; cbn [para_body length].
  - by destruct i.
  - rewrite length_app. cbn [length]. rewrite IH. destruct i; cbn; lia.
Qed.

Lemma parse_paragraph_spec line lines :
  nonblank line = true →
  parse_paragraph (line :: lines) =
  texts ← mapM (λ l, parse_inline_markdown (strip l))
                (take_while nonblank (line :: lines));
  Ok (Some (para_html texts, 2 * length texts - 1)).
Proof.
  intros H. unfold parse_paragraph. unfold nonblank in H.
  apply negb_true_iff in H. rewrite H.
  rewrite para_loop_spec.
  destruct (mapM _ _) as [texts|]; [|done]. rewrite !bind_Ok.
  unfold para_html. do 3 f_equal.
  rewrite length_app. cbn [app length]. rewrite para_body_length. cbn. lia.
Qed.

Lemma parse_paragraph_other lines :
  (∀ line rest, lines = line :: rest → nonblank line = false) →
  parse_paragraph lines = Ok None.
Proof.
  intros H. destruct lines as [|line rest]; [done|].
  unfold parse_paragraph. pose proof (H line rest eq_refl) as Hb.
  unfold nonblank in Hb. apply negb_false_iff in Hb. by rewrite Hb.
Qed.

(** ** One iteration of the scan *)

Lemma startswith_pair a b s :
  startswith [a; b] s = true → ∃ r, s = a :: b :: r.
Proof.
  destruct s as [|a' [|b' r]]; cbn; try done.
  - by rewrite andb_false_r.
  - intros [Ha [Hb _]%andb_prop]%andb_prop.
    apply N.eqb_eq in Ha as <-, Hb as <-. by eexists.
Qed.

Lemma parse_headings_not_hash c s :
  isspace c = false → c ≠ ch "#" → parse_headings (strip (c :: s)) = Ok None.
Proof.
  intros Hc Hh. destruct (strip_cons c s Hc) as [s' ->].
  unfold parse_headings. rewrite heading_match. unfold heading_parts.
  cbn [take_while]. assert ((ch "#" =? c)%N = false) as ->; [|done].
  apply N.eqb_neq. congruence.
Qed.

Lemma run_maximal {A} (p : A → bool) (lines : list A) i next :
  lines !! (i + length (take_while p (drop i lines))) = Some next →
  p next = false.
Proof.
  rewrite <- lookup_drop. intros H.
  apply (take_while_stop p (drop i lines) next
           (drop (S (length (take_while p (drop i lines)))) (drop i lines))).
  by apply drop_S.
Qed.

Lemma ul_step lines i line :
  lines !! i = Some line → startswith (py "- ") line = true →
  scan_step lines i =
  items ← mapM item_of (take_while (startswith (py "- ")) (drop i lines));
  Ok (list_html (py "<ul>") (py "</ul>") items,
      i + length (take_while (startswith (py "- ")) (drop i lines))).
Proof.
  intros Hi Hs. unfold scan_step. rewrite Hi.
  change (default [] (Some line)) with line.
  destruct (startswith_pair _ _ _ Hs) as [r ->].
  rewrite parse_headings_not_hash by done. rewrite bind_Ok.
  rewrite (drop_S _ _ _ Hi), parse_unordered_list_spec by done.
  destruct (mapM item_of _) as [items|] eqn:E; [|done]. rewrite !bind_Ok.
  by rewrite (mapM_length _ _ _ E).
Qed.

Lemma ol_step lines i line :
  lines !! i = Some line → startswith (py "* ") line = true →
  scan_step lines i =
  items ← mapM item_of (take_while (startswith (py "* ")) (drop i lines));
  Ok (list_html (py "<ol>") (py "</ol>") items,
      i + length (take_while (startswith (py "* ")) (drop i lines))).
Proof.
  intros Hi Hs. unfold scan_step. rewrite Hi.
  change (default [] (Some line)) with line.
  destruct (startswith_pair _ _ _ Hs) as [r ->].
  rewrite parse_headings_not_hash by done. rewrite bind_Ok.
  rewrite (drop_S _ _ _ Hi).
  rewrite parse_unordered_list_other by (by intros ? ? [= <- <-]).
  rewrite bind_Ok, parse_ordered_list_spec by done.
  destruct (mapM item_of _) as [items|] eqn:E; [|done]. rewrite !bind_Ok.
  by rewrite (mapM_length _ _ _ E).
Qed.

Lemma heading_step lines i raw level w content :
  lines !! i = Some raw → heading_form (strip raw) level w content →
  scan_step lines i =
  c ← parse_inline_markdown content; Ok (heading_html level c, i + 1).
Proof.
  intros Hi Hf. unfold scan_step. rewrite Hi.
  change (default [] (Some raw)) with raw.
  rewrite (parse_headings_form _ _ _ _ Hf).
  destruct (parse_inline_markdown content) as [c|]; [|done].
  rewrite !bind_Ok. reflexivity.
Qed.

(** ** Progress and termination *)

Lemma unordered_count lines html n :
  parse_unordered_list lines = Ok (Some (html, n)) → 1 ≤ n.
Proof.
  destruct lines as [|line lines]; [done|].
  destruct (startswith (py "- ") line) eqn:E.
  - rewrite parse_unordered_list_spec by done. cbn [take_while]. rewrite E.
    destruct (mapM item_of _) as [items|] eqn:Em; [|done].
    rewrite bind_Ok. intros [= _ <-].
    apply mapM_length in Em as ->. cbn. lia.
  - by rewrite parse_unordered_list_other by (by intros ? ? [= <- <-]).
Qed.

Lemma ordered_count lines html n :
  parse_ordered_list lines = Ok (Some (html, n)) → 1 ≤ n.
Proof.
  destruct lines as [|line lines]; [done|].
  destruct (startswith (py "* ") line) eqn:E.
  - rewrite parse_ordered_list_spec by done. cbn [take_while]. rewrite E.
    destruct (mapM item_of _) as [items|] eqn:Em; [|done].
    rewrite bind_Ok. intros [= _ <-].
    apply mapM_length in Em as ->. cbn. lia.
  - by rewrite parse_ordered_list_other by (by intros ? ? [= <- <-]).
Qed.

Lemma paragraph_count lines html n :
  parse_paragraph lines = Ok (Some (html, n)) →
  n = 2 * length (take_while nonblank lines) - 1 ∧ 1 ≤ n.
Proof.
  destruct lines as [|line lines]; [done|].
  destruct (nonblank line) eqn:E.
  - rewrite parse_paragraph_spec by done. cbn [take_while]. rewrite E.
    destruct (mapM _ _) as [texts|] eqn:Em; [|done].
    rewrite bind_Ok. intros [= _ <-].
    apply mapM_length in Em as ->. cbn [length]. lia.
  - by rewrite parse_paragraph_other by (by intros ? ? [= <- <-]).
Qed.

Lemma scan_step_progress lines i html i' :
  scan_step lines i = Ok (html, i') → i < i'.
Proof.
  unfold scan_step.
  destruct (parse_headings _) as [heading|]; [|done]. rewrite bind_Ok.
  assert (∀ r : result (pystr * nat),
    (ul_result ← parse_unordered_list (drop i lines);
     match ul_result with
     | Some (html_list, items_count) => Ok (html_list, i + items_count)
     | None =>
         ol_result ← parse_ordered_list (drop i lines);
         match ol_result with
         | Some (html_list, items_count) => Ok (html_list, i + items_count)
         | None =>
             para_result ← parse_paragraph (drop i lines);
             match para_result with
             | Some (html_para, lines_count) => Ok (html_para, i + lines_count)
             | None => Ok ([], i + 1)
             end
         end
     end) = Ok (html, i') → i < i') as Hrest.
  { intros _.
    destruct (parse_unordered_list _) as [[[h n]|]|] eqn:Eu; [| |done].
    { rewrite bind_Ok. intros [= _ <-]. apply unordered_count in Eu. lia. }
    rewrite bind_Ok.
    destruct (parse_ordered_list _) as [[[h n]|]|] eqn:Eo; [| |done].
    { rewrite bind_Ok. intros [= _ <-]. apply ordered_count in Eo. lia. }
    rewrite bind_Ok.
    destruct (parse_paragraph _) as [[[h n]|]|] eqn:Ep; [| |done].
    { rewrite bind_Ok. intros [= _ <-]. apply paragraph_count in Ep. lia. }
    rewrite bind_Ok. intros [= _ <-]. lia. }
  destruct heading as [[|c h]|]; [by apply Hrest; exact (Ok ([], 0))| |by apply Hrest; exact (Ok ([], 0))].
  intros [= _ <-]. lia.
Qed.

Lemma scan_enough_fuel lines :
  ∀ fuel i out, length lines - i < fuel → is_Some (scan fuel lines i out).
Proof.
  induction fuel as [|fuel IH]; intros i out Hf; [lia|]. cbn [scan].
  destruct (i <? length lines) eqn:Ei; [|done]. apply Nat.ltb_lt in Ei.
  destruct (scan_step lines i) as [[html i']|] eqn:Es; [|done].
  apply scan_step_progress in Es. apply IH. lia.
Qed.

(** ** Text read from a file is transformed without an exception *)

Lemma text_ok_Forall s : text_ok s = true ↔ Forall (λ c, encodable c = true) s.
Proof.
  unfold text_ok. induction s as [|c s IH]; cbn; [done|].
  rewrite andb_true_iff, Forall_cons. by rewrite IH.
Qed.

Lemma encode_char_ok c : encodable c = true → ∃ bs, encode_char c = Ok bs.
Proof.
  unfold encodable, encode_char. intros H.
  assert (c < 0xD800 ∨ 0xDFFF < c < 0x110000)%N as Hc.
  { apply orb_prop in H as [H%N.ltb_lt|[H1%N.ltb_lt H2%N.ltb_lt]%andb_prop]; lia. }
  clear H.
  destruct (c <? 0x80)%N; [by eexists|].
  destruct (c <? 0x800)%N; [by eexists|].
  destruct (c <? 0x10000)%N eqn:E3.
  - destruct ((0xD800 <=? c) && (c <=? 0xDFFF))%N eqn:Es; [|by eexists].
    apply andb_prop in Es as [E1%N.leb_le E2%N.leb_le]. lia.
  - apply N.ltb_ge in E3.
    destruct (c <? 0x110000)%N eqn:E4; [by eexists|]. apply N.ltb_ge in E4. lia.
Qed.

Lemma encode_ok s : text_ok s = true → ∃ bs, encode s = Ok bs.
Proof.
  unfold text_ok. induction s as [|c s IH]; cbn [forallb encode]; [by eexists|].
  intros [Hc Hs]%andb_prop.
  destruct (encode_char_ok c Hc) as [b ->]. destruct (IH Hs) as [bs ->].
  by eexists.
Qed.

Lemma hex_encodable c : is_hex c = true → encodable c = true.
Proof.
  unfold is_hex, encodable. intros H. apply orb_true_iff. left.
  apply N.ltb_lt.
  apply orb_prop in H as [[_ H%N.leb_le]%andb_prop|[_ H%N.leb_le]%andb_prop]; lia.
Qed.

Lemma md5_hash_ok X :
  text_ok X = true → ∃ d, md5_hash X = Ok d ∧ text_ok d = true.
Proof.
  intros H. unfold md5_hash. destruct (encode_ok X H) as [bs ->].
  eexists. split; [done|]. pose proof (hexdigest_hex bs) as Hh.
  unfold text_ok. induction (MD5.hexdigest bs) as [|c l IH]; [done|].
  cbn in *. apply andb_prop in Hh as [Hc Hl].
  by rewrite (hex_encodable c Hc), IH.
Qed.

Lemma text_ok_app s1 s2 : text_ok (s1 ++ s2) = text_ok s1 && text_ok s2.
Proof. apply forallb_app. Qed.

Lemma text_ok_filter f s : text_ok s = true → text_ok (List.filter f s) = true.
Proof.
  unfold text_ok. induction s as [|c s IH]; cbn; [done|].
  intros [Hc Hs]%andb_prop. destruct (f c); cbn; [rewrite Hc|]; by apply IH.
Qed.

Lemma text_ok_drop n s : text_ok s = true → text_ok (drop n s) = true.
Proof. rewrite !text_ok_Forall. apply Forall_drop. Qed.

Lemma text_ok_take n s : text_ok s = true → text_ok (take n s) = true.
Proof. rewrite !text_ok_Forall. apply Forall_take. Qed.

Lemma text_ok_lstrip s : text_ok s = true → text_ok (lstrip s) = true.
Proof.
  induction s as [|c s IH]; cbn [lstrip]; [done|].
  destruct (isspace c); [|done]. cbn. intros [_ H]%andb_prop. by apply IH.
Qed.

Lemma text_ok_reverse s : text_ok s = true → text_ok (reverse s) = true.
Proof. rewrite !text_ok_Forall. apply Forall_reverse. Qed.

Lemma text_ok_strip s : text_ok s = true → text_ok (strip s) = true.
Proof.
  intros H. unfold strip, rstrip.
  by apply text_ok_reverse, text_ok_lstrip, text_ok_reverse, text_ok_lstrip.
Qed.

Lemma sub_delim_ok o c repl :
  (∀ X, text_ok X = true → ∃ out, repl [(1, X)] = Ok out ∧ text_ok out = true) →
  ∀ n s, length s < n → text_ok s = true →
  ∃ t, re_sub (delim_pattern o c) repl s = Ok t ∧ text_ok t = true.
Proof.
  intros Hrepl. induction n as [|n IH]; intros s Hn Hs; [lia|].
  destruct s as [|a s]; [by exists []|].
  destruct (match_delim (ch o) (ch c) (a :: s)) as [[X rest]|] eqn:E.
  - rewrite (sub_delim_match _ _ _ _ _ _ E).
    pose proof (match_delim_app _ _ _ _ _ E) as Hsplit.
    assert (text_ok X = true ∧ text_ok rest = true) as [HX Hrest].
    { rewrite Hsplit in Hs. cbn in Hs.
      apply andb_prop in Hs as [_ [_ Hs]%andb_prop].
      change (text_ok (X ++ ch c :: ch c :: rest) = true) in Hs.
      rewrite text_ok_app in Hs. apply andb_prop in Hs as [HX Hs].
      split; [done|]. cbn in Hs. by apply andb_prop in Hs as [_ [_ Hs]%andb_prop]. }
    assert (length rest < n) as Hlen.
    { rewrite Hsplit in Hn. cbn in Hn. rewrite length_app in Hn. cbn in Hn. lia. }
    destruct (Hrepl X HX) as (out & -> & Hout).
    destruct (IH rest Hlen Hrest) as (t & -> & Ht).
    eexists. split; [done|]. by rewrite text_ok_app, Hout, Ht.
  - rewrite (sub_delim_skip _ _ _ _ _ E). cbn in Hs, Hn.
    apply andb_prop in Hs as [Ha Hs].
    destruct (IH s ltac:(lia) Hs) as (t & -> & Ht).
    eexists. split; [done|]. cbn. by rewrite Ha.
Qed.

Lemma parse_inline_ok s :
  text_ok s = true → ∃ t, parse_inline_markdown s = Ok t ∧ text_ok t = true.
Proof.
  intros Hs. rewrite parse_inline_passes.
  destruct (sub_delim_ok "*" "*"
    (λ m, Ok (py "<b>" ++ group 1 m ++ py "</b>"))) with (n := S (length s)) (s := s)
    as (t1 & H1 & Hk1); [|lia|done|].
  { intros X HX. eexists. split; [done|]. cbn [group Nat.eqb].
    by rewrite !text_ok_app, HX. }
  destruct (sub_delim_ok "_" "_"
    (λ m, Ok (py "<em>" ++ group 1 m ++ py "</em>"))) with (n := S (length t1)) (s := t1)
    as (t2 & H2 & Hk2); [|lia|done|].
  { intros X HX. eexists. split; [done|]. cbn [group Nat.eqb].
    by rewrite !text_ok_app, HX. }
  destruct (sub_delim_ok "[" "]"
    (λ m, md5_hash (group 1 m))) with (n := S (length t2)) (s := t2)
    as (t3 & H3 & Hk3); [|lia|done|].
  { intros X HX. cbn [group Nat.eqb]. by apply md5_hash_ok. }
  destruct (sub_delim_ok "(" ")"
    (λ m, remove_c (group 1 m))) with (n := S (length t3)) (s := t3)
    as (t4 & H4 & Hk4); [|lia|done|].
  { intros X HX. cbn [group Nat.eqb]. rewrite remove_c_filter.
    eexists. split; [done|]. by apply text_ok_filter. }
  exists t4. split; [|done].
  unfold pass_bold, pass_em, pass_md5, pass_strip.
  change bold_pattern with (delim_pattern "*" "*").
  change em_pattern with (delim_pattern "_" "_").
  change md5_pattern with (delim_pattern "[" "]").
  change strip_pattern with (delim_pattern "(" ")").
  by rewrite H1, bind_Ok, H2, bind_Ok, H3, bind_Ok.
Qed.

Lemma text_ok_take_while p s : text_ok s = true → text_ok (take_while p s) = true.
Proof. rewrite <- take_while_prefix. apply text_ok_take. Qed.

Lemma heading_parts_ok t h c :
  heading_parts t = Some (h, c) → text_ok t = true → text_ok c = true.
Proof.
  unfold heading_parts. intros H Ht.
  destruct (_ && _); [|done].
  destruct (drop _ t) as [|w s] eqn:Ed; [done|].
  assert (text_ok s = true) as Hs.
  { pose proof (text_ok_drop (length (take_while (N.eqb (ch "#")) t)) t Ht) as Hd.
    rewrite Ed in Hd. cbn in Hd. by apply andb_prop in Hd as [_ Hd]. }
  destruct (isspace w); [|done]. destruct (1 <=? _); [|done].
  destruct (drop _ s) as [|a [|a' s']]; [| |done].
  - injection H as _ <-. by apply text_ok_take_while.
  - destruct (a =? nl)%N; [|done]. injection H as _ <-.
    by apply text_ok_take_while.
Qed.

Lemma parse_headings_ok t : text_ok t = true → ∃ r, parse_headings t = Ok r.
Proof.
  intros Ht. unfold parse_headings. rewrite heading_match.
  destruct (heading_parts t) as [[h c]|] eqn:E; [|by eexists].
  cbn [fmap option_fmap option_map group Nat.eqb].
  destruct (parse_inline_ok c (heading_parts_ok _ _ _ E Ht)) as (c' & -> & _).
  by eexists.
Qed.

Lemma item_of_ok line : text_ok line = true → ∃ t, item_of line = Ok t.
Proof.
  intros H. unfold item_of.
  destruct (parse_inline_ok (strip (drop 2 line))) as (t & -> & _); [|by eexists].
  by apply text_ok_strip, text_ok_drop.
Qed.

Lemma list_loop_ok marker lines :
  Forall (λ l, text_ok l = true) lines →
  ∀ html_list, ∃ r, list_loop marker lines html_list = Ok r.
Proof.
  induction 1 as [|line lines Hl _ IH]; intros html_list; cbn [list_loop];
    [by eexists|].
  destruct (startswith marker line); [|by eexists].
  destruct (item_of_ok line Hl) as [item ->]. rewrite bind_Ok. apply IH.
Qed.

Lemma parse_unordered_list_ok lines :
  Forall (λ l, text_ok l = true) lines → ∃ r, parse_unordered_list lines = Ok r.
Proof.
  intros H. unfold parse_unordered_list.
  destruct lines as [|line0 lines]; [by eexists|].
  destruct (negb _); [by eexists|]. rewrite ul_loop_eq.
  destruct (list_loop_ok (py "- ") _ H [py "<ul>"]) as [r ->]. by eexists.
Qed.

Lemma parse_ordered_list_ok lines :
  Forall (λ l, text_ok l = true) lines → ∃ r, parse_ordered_list lines = Ok r.
Proof.
  intros H. unfold parse_ordered_list.
  destruct lines as [|line0 lines]; [by eexists|].
  destruct (negb _); [by eexists|]. rewrite ol_loop_eq.
  destruct (list_loop_ok (py "* ") _ H [py "<ol>"]) as [r ->]. by eexists.
Qed.

Lemma para_loop_ok lines :
  Forall (λ l, text_ok l = true) lines →
  ∀ i html_para, ∃ r, para_loop i lines html_para = Ok r.
Proof.
  induction 1 as [|line lines Hl _ IH]; intros i html_para; cbn [para_loop];
    [by eexists|].
  destruct (is_empty _); [by eexists|].
  destruct (parse_inline_ok (strip line) (text_ok_strip _ Hl)) as (t & -> & _).
  rewrite bind_Ok. apply IH.
Qed.

Lemma parse_paragraph_ok lines :
  Forall (λ l, text_ok l = true) lines → ∃ r, parse_paragraph lines = Ok r.
Proof.
  intros H. unfold parse_paragraph.
  destruct lines as [|line0 lines]; [by eexists|].
  destruct (is_empty _); [by eexists|].
  destruct (para_loop_ok _ H 0 [py "<p>"]) as [r ->]. by eexists.
Qed.

Lemma scan_step_ok lines i :
  Forall (λ l, text_ok l = true) lines → ∃ r, scan_step lines i = Ok r.
Proof.
  intros H. unfold scan_step.
  assert (text_ok (strip (default [] (lines !! i))) = true) as Hline.
  { apply text_ok_strip. destruct (lines !! i) as [line|] eqn:E; [|done].
    by eapply (Forall_lookup_1 _ _ _ _ H E). }
  destruct (parse_headings_ok _ Hline) as [heading ->]. rewrite bind_Ok.
  pose proof (Forall_drop _ i _ H) as Hd.
  destruct (parse_unordered_list_ok _ Hd) as [ul ->].
  destruct (parse_ordered_list_ok _ Hd) as [ol ->].
  destruct (parse_paragraph_ok _ Hd) as [para ->]. rewrite !bind_Ok.
  destruct heading as [[|c h]|], ul as [[? ?]|], ol as [[? ?]|], para as [[? ?]|];
    by eexists.
Qed.

Lemma scan_ok lines :
  Forall (λ l, text_ok l = true) lines →
  ∀ fuel i out out' e, scan fuel lines i out = Some (out', e) → e = None.
Proof.
  intros H. induction fuel as [|fuel IH]; intros i out out' e; cbn [scan]; [done|].
  destruct (i <? length lines); [|by intros [= _ <-]].
  destruct (scan_step_ok lines i H) as [[html i'] ->]. apply IH.
Qed.

Lemma split_lines_ok text :
  text_ok text = true →
  ∀ cur, text_ok cur = true → Forall (λ l, text_ok l = true) (split_lines cur text).
Proof.
  induction text as [|c text IH]; intros Ht cur Hcur; cbn [split_lines].
  - destruct cur; [constructor|]. by repeat constructor.
  - cbn in Ht. apply andb_prop in Ht as [Hc Ht].
    assert (text_ok (cur ++ [c]) = true) as Hcc.
    { rewrite text_ok_app, Hcur. cbn. by rewrite Hc. }
    destruct (c =? nl)%N.
    + constructor; [done|]. by apply IH.
    + by apply IH.
Qed.

Lemma readlines_ok text :
  text_ok text = true → Forall (λ l, text_ok l = true) (readlines text).
Proof. intros H. by apply split_lines_ok. Qed.

(** ** Every span is replaced *)

Lemma scan_close_is_shortest c s x rest :
  scan_close c s = Some (x, rest) → shortest c x = true.
Proof.
  revert x rest. induction s as [|a s IH]; intros x rest; cbn [scan_close]; [done|].
  destruct (startswith [c; c] (a :: s)) eqn:E.
  - intros [= <- <-]. unfold shortest. cbn. by rewrite andb_false_r.
  - destruct (dot a); [|done].
    destruct (scan_close c s) as [[x' rest']|] eqn:Es; [|done].
    intros [= <- <-]. pose proof (IH _ _ eq_refl) as Hx.
    pose proof (scan_close_app _ _ _ _ Es) as ->.
    unfold shortest in *. apply negb_true_iff in Hx. apply negb_true_iff.
    cbn [app contains]. rewrite Hx, orb_false_r.
    by rewrite <- (startswith_pair_ext c a x' (c :: rest')).
Qed.

Lemma scan_close_exists c X rest :
  single_line X = true → is_Some (scan_close c (X ++ c :: c :: rest)).
Proof.
  unfold single_line. induction X as [|a X IH]; intros H.
  - cbn. by rewrite N.eqb_refl.
  - cbn in H. apply andb_prop in H as [Ha H]. cbn [app scan_close].
    destruct (startswith _ _); [done|]. rewrite Ha.
    destruct (IH H) as [[x r] ->]. done.
Qed.

Lemma match_delim_None o c a s :
  match_delim o c (a :: s) = None ↔
  ∀ X rest, single_line X = true → a :: s ≠ o :: o :: X ++ c :: c :: rest.
Proof.
  split.
  - intros H X rest HX Hs. rewrite Hs in H. cbn in H.
    rewrite N.eqb_refl in H. cbn in H.
    destruct (scan_close_exists c X rest HX) as [? Hx]. congruence.
  - intros H. destruct (match_delim o c (a :: s)) as [[X rest]|] eqn:E; [|done].
    pose proof (match_delim_app _ _ _ _ _ E) as Hs.
    destruct s as [|b s]; [done|]. cbn in E.
    destruct ((a =? o)%N && (b =? o)%N); [|done].
    by destruct (H X rest (scan_close_dot _ _ _ _ E)).
Qed.

Lemma match_delim_Some o c s X rest :
  match_delim o c s = Some (X, rest) →
  s = o :: o :: X ++ c :: c :: rest ∧ single_line X = true ∧ shortest c X = true.
Proof.
  intros E. split; [by apply match_delim_app|].
  destruct s as [|a [|b s]]; try done. cbn in E.
  destruct ((a =? o)%N && (b =? o)%N); [|done].
  split; [by eapply scan_close_dot|by eapply scan_close_is_shortest].
Qed.

(** A pass does what [replaced] says, and nothing else does. *)
Lemma sub_delim_replaced o c repl :
  ∀ n text, length text < n →
  replaced (ch o) (ch c) (λ X, repl [(1, X)]) text
    (re_sub (delim_pattern o c) repl text).
Proof.
  induction n as [|n IH]; intros text Hn; [lia|].
  destruct text as [|a s]; [constructor|].
  destruct (match_delim (ch o) (ch c) (a :: s)) as [[X rest]|] eqn:E.
  - rewrite (sub_delim_match _ _ _ _ _ _ E).
    destruct (match_delim_Some _ _ _ _ _ E) as (Hs & HX & Hsh).
    rewrite Hs. apply (replaced_span _ _ (λ X, repl [(1, X)])); [done|done|].
    apply IH. rewrite Hs in Hn. cbn in Hn. rewrite length_app in Hn. cbn in Hn. lia.
  - rewrite (sub_delim_skip _ _ _ _ _ E).
    apply replaced_copy; [by apply match_delim_None|].
    apply IH. cbn in Hn. lia.
Qed.

Lemma replaced_sub_delim o c repl text r :
  replaced (ch o) (ch c) (λ X, repl [(1, X)]) text r →
  re_sub (delim_pattern o c) repl text = r.
Proof.
  induction 1 as [|X rest r HX Hsh _ IH|a s r Hno _ IH].
  - reflexivity.
  - by rewrite (sub_delim_span o c repl X rest HX Hsh), IH.
  - apply match_delim_None in Hno. by rewrite (sub_delim_skip _ _ _ _ _ Hno), IH.
Qed.

Lemma sub_delim_replaced_iff o c repl text r :
  replaced (ch o) (ch c) (λ X, repl [(1, X)]) text r
  ↔ re_sub (delim_pattern o c) repl text = r.
Proof.
  split; [apply replaced_sub_delim|].
  intros <-. apply (sub_delim_replaced o c repl (S (length text))). lia.
Qed.

Lemma pass_bold_replaced text r :
  replaced (ch "*") (ch "*") (λ X, Ok (py "<b>" ++ X ++ py "</b>")) text r
  ↔ pass_bold text = r.
Proof.
  exact (sub_delim_replaced_iff "*" "*"
           (λ m, Ok (py "<b>" ++ group 1 m ++ py "</b>")) text r).
Qed.

Lemma pass_em_replaced text r :
  replaced (ch "_") (ch "_") (λ X, Ok (py "<em>" ++ X ++ py "</em>")) text r
  ↔ pass_em text = r.
Proof.
  exact (sub_delim_replaced_iff "_" "_"
           (λ m, Ok (py "<em>" ++ group 1 m ++ py "</em>")) text r).
Qed.

Lemma pass_md5_replaced text r :
  replaced (ch "[") (ch "]") md5_hash text r ↔ pass_md5 text = r.
Proof.
  exact (sub_delim_replaced_iff "[" "]" (λ m, md5_hash (group 1 m)) text r).
Qed.

Lemma pass_strip_replaced text r :
  replaced (ch "(") (ch ")") remove_c text r ↔ pass_strip text = r.
Proof.
  exact (sub_delim_replaced_iff "(" ")" (λ m, remove_c (group 1 m)) text r).
Qed.

(** ** The loop on the output file *)

Lemma scan_action_step lines i :
  scan_step lines i = (λ '(a, i'), (written a, i')) <$> scan_action lines i.
Proof.
  unfold scan_step, scan_action.
  destruct (parse_headings _) as [heading|e]; [|done]. rewrite !bind_Ok.
  destruct heading as [[|c h]|]; try done;
    (destruct (parse_unordered_list _) as [[[h1 n1]|]|e1]; [done| |done];
     rewrite !bind_Ok;
     destruct (parse_ordered_list _) as [[[h2 n2]|]|e2]; [done| |done];
     rewrite !bind_Ok;
     by destruct (parse_paragraph _) as [[[h3 n3]|]|e3]).
Qed.

Lemma scan_action_progress lines i a i' :
  scan_action lines i = Ok (a, i') → i < i'.
Proof.
  intros Ha. apply (scan_step_progress lines i (written a)).
  by rewrite scan_action_step, Ha.
Qed.

Lemma scan_frags_scan lines : ∀ fuel i out,
  scan fuel lines i out
  = (λ '(frs, e), (out ++ concat frs, e)) <$> scan_frags fuel lines i.
Proof.
  induction fuel as [|fuel IH]; intros i out; [done|]. cbn [scan scan_frags].
  destruct (i <? length lines); [|by cbn; rewrite app_nil_r].
  rewrite scan_action_step.
  destruct (scan_action lines i) as [[[html|] i']|e]; cbn.
  - rewrite IH. destruct (scan_frags fuel lines i') as [[frs e]|]; cbn; [|done].
    by rewrite <- app_assoc.
  - rewrite app_nil_r. apply IH.
  - by rewrite app_nil_r.
Qed.

Lemma scan_io_enough_fuel `{OS world} lines (html_file : handle) :
  ∀ fuel i (w : world),
    length lines - i < fuel → is_Some (scan_io fuel lines i w html_file).
Proof.
  induction fuel as [|fuel IH]; intros i w Hf; [lia|]. cbn [scan_io].
  destruct (i <? length lines) eqn:Ei; [|done]. apply Nat.ltb_lt in Ei.
  destruct (scan_action lines i) as [[[html|] i']|e] eqn:Ea; [| |done].
  - apply scan_action_progress in Ea.
    destruct (os_write w html_file html) as [w' [e|]]; [done|]. apply IH. lia.
  - apply scan_action_progress in Ea. apply IH. lia.
Qed.

Lemma scan_io_done `{OS world} lines (html_file : handle) :
  ∀ fuel i (w w' : world),
    scan_io fuel lines i w html_file = Some (w', None)
    ↔ ∃ frs, scan_frags fuel lines i = Some (frs, None)
             ∧ write_all w html_file frs = (w', None).
Proof.
  induction fuel as [|fuel IH]; intros i w w'; cbn [scan_io scan_frags].
  { split; [done|by intros (? & ? & _)]. }
  destruct (i <? length lines).
  2:{ split.
      - intros [= <-]. by exists [].
      - by intros (frs & [= <-] & [= <-]). }
  destruct (scan_action lines i) as [[[html|] i']|e].
  - destruct (os_write w html_file html) as [w1 [e|]] eqn:Ew.
    + split; [done|]. intros (frs & Hf & Hw).
      destruct (scan_frags fuel lines i') as [[frs' e']|]; [|done].
      cbn in Hf. injection Hf as <- ->. cbn in Hw. by rewrite Ew in Hw.
    + rewrite IH. split.
      * intros (frs & Hf & Hw). exists (html :: frs). rewrite Hf. cbn.
        by rewrite Ew.
      * intros (frs & Hf & Hw).
        destruct (scan_frags fuel lines i') as [[frs' e']|]; [|done].
        cbn in Hf. injection Hf as <- ->. cbn in Hw. rewrite Ew in Hw.
        by exists frs'.
  - apply IH.
  - split; [done|]. by intros (frs & [=] & _).
Qed.

Lemma scan_io_keeps `{OS world} (P : world → Prop) lines (html_file : handle) :
  (∀ w text, P w → P (os_write w html_file text).1) →
  ∀ fuel i (w w' : world) e,
    scan_io fuel lines i w html_file = Some (w', e) → P w → P w'.
Proof.
  intros Hwrite. induction fuel as [|fuel IH]; intros i w w' e; [done|].
  cbn [scan_io]. destruct (i <? length lines); [|by intros [= <- _]].
  destruct (scan_action lines i) as [[[html|] i']|e0].
  - pose proof (Hwrite w html) as Hw.
    destruct (os_write w html_file html) as [w1 [e1|]]; cbn in Hw.
    + intros [= <- _]. exact Hw.
    + intros Hs HP. exact (IH _ _ _ _ Hs (Hw HP)).
  - apply IH.
  - by intros [= <- _].
Qed.

Lemma leave_with_None `{OS world} (f : handle) (w w' : world) e :
  leave_with f (w, e) = (w', None) ↔ e = None ∧ os_close w f = (w', None).
Proof.
  unfold leave_with. destruct (os_close w f) as [w1 [e1|]].
  - split; [done|by intros [_ [=]]].
  - split; [by intros [= <- ->]|by intros [-> [= ->]]].
Qed.

Lemma converts_iff `{OS world} fuel input_file output_file (w w' : world) :
  convert_markdown_to_html fuel input_file output_file w = Some (w', None)
  ↔ converts fuel input_file output_file w w'.
Proof.
  unfold convert_markdown_to_html, converts. split.
  - destruct (os_open_r w input_file) as [md_file|e]; [|done].
    destruct (os_open_w w output_file) as [w1 [html_file|e]]; cbn.
    2:{ intros [= Hl]. by apply leave_with_None in Hl as [[=] _]. }
    destruct (os_readlines w1 md_file) as [lines|e] eqn:El; cbn.
    2:{ intros [= Hl].
        destruct (leave_with html_file (w1, Some e)) as [w2 e2] eqn:E2.
        apply leave_with_None in Hl as [-> _].
        by apply leave_with_None in E2 as [[=] _]. }
    destruct (scan_io fuel lines 0 w1 html_file) as [[w2 e2]|] eqn:Es; cbn;
      [|done].
    intros [= Hl].
    destruct (leave_with html_file (w2, e2)) as [w3 e3] eqn:E3.
    apply leave_with_None in Hl as [-> Hc2].
    apply leave_with_None in E3 as [-> Hc1].
    apply scan_io_done in Es as (frs & Hf & Hw).
    exists md_file, html_file, lines, frs, w1, w2, w3.
    refine (conj eq_refl (conj eq_refl (conj El (conj Hf
              (conj _ (conj Hw (conj Hc1 Hc2))))))).
    by rewrite scan_frags_scan, Hf.
  - intros (md_file & html_file & lines & frs & w1 & w2 & w3
            & -> & -> & Hr & Hf & _ & Hw & Hc1 & Hc2).
    cbn. rewrite Hr.
    rewrite (proj2 (scan_io_done lines html_file fuel 0 w1 w2)) by eauto.
    cbn. unfold leave_with. by rewrite Hc1, Hc2.
Qed.

Lemma convert_enough_fuel `{OS world} fuel input_file output_file (w : world) :
  (∀ md_file w1 html_file lines,
     os_open_r w input_file = Ok md_file →
     os_open_w w output_file = (w1, Ok html_file) →
     os_readlines w1 md_file = Ok lines → length lines < fuel) →
  is_Some (convert_markdown_to_html fuel input_file output_file w).
Proof.
  intros Hfuel. unfold convert_markdown_to_html.
  destruct (os_open_r w input_file) as [md_file|e] eqn:Er; [|done].
  destruct (os_open_w w output_file) as [w1 [html_file|e]] eqn:Ew; cbn; [|done].
  destruct (os_readlines w1 md_file) as [lines|e] eqn:El; cbn; [|done].
  destruct (scan_io_enough_fuel lines html_file fuel 0 w1) as [[w2 e2] ->];
    [|done].
  specialize (Hfuel _ _ _ _ eq_refl eq_refl El). lia.
Qed.

(** * The properties of the specification *)

(** C1 (paragraph cursor).  On the five lines ["a"], ["b"], ["c"], a blank
    line and ["# T"], the paragraph check consumes the first three lines but
    reports [len(html_para) - 2 = 5], the two [<br/>] separators included:
    the cursor goes from 0 to 5, the heading line is never examined and the
    whole output is the paragraph. *)
Theorem paragraph_cursor_overshoots :
  let lines := [ln "a"; ln "b"; ln "c"; [nl]; ln "# T"] in
  take_while nonblank lines = [ln "a"; ln "b"; ln "c"]
  ∧ scan_step lines 0 = Ok (para_html [py "a"; py "b"; py "c"], 5)
  ∧ scan_step lines 4 = Ok (ln "<h1>T</h1>", 5)
  ∧ scan 6 lines 0 [] = Some (para_html [py "a"; py "b"; py "c"], None).
Proof. vm_compute. done. Qed.

(** C2 as stated fails: the line ["#<TAB>Title"] is turned into a heading
    although a tab, not a space, follows the [#]. *)
Lemma heading_after_tab :
  let raw := py "#" ++ [9%N] ++ ln "Title" in
  scan_step [raw] 0 = Ok (ln "<h1>Title</h1>", 1)
  ∧ ¬ ∃ level content,
        1 ≤ level ≤ 6 ∧ content ≠ []
        ∧ strip raw = replicate level (ch "#") ++ ch " " :: content.
Proof.
  split; [by vm_compute|].
  intros (level & content & [H1 _] & _ & H).
  destruct level as [|[|level]]; [lia| |]; vm_compute in H; discriminate H.
Qed.

(** C2, amended (heading).  A trimmed line made of one to six [#], one
    whitespace character and a non-empty content without a line break is
    written as [<h{level}>{inline(content)}</h{level}>] and a newline, with
    [level] the number of leading [#], and the cursor advances by 1; a
    trimmed line of no such form is no heading; the lines [["# Title\n"]]
    give ["<h1>Title</h1>\n"]. *)
Theorem heading_block lines i raw :
  lines !! i = Some raw →
  (∀ level w content,
     heading_form (strip raw) level w content →
     scan_step lines i =
     c ← parse_inline_markdown content; Ok (heading_html level c, i + 1))
  ∧ ((∀ level w content, ¬ heading_form (strip raw) level w content) →
     parse_headings (strip raw) = Ok None)
  ∧ scan 2 [ln "# Title"] 0 [] = Some (ln "<h1>Title</h1>", None).
Proof.
  intros Hi. split; [|split].
  - intros level w content Hf. by eapply heading_step.
  - apply parse_headings_other.
  - by vm_compute.
Qed.

Lemma heading_block_witness :
  [ln "## Two words"] !! 0 = Some (ln "## Two words")
  ∧ heading_form (strip (ln "## Two words")) 2 (ch " ") (py "Two words")
  ∧ scan_step [ln "## Two words"] 0 = Ok (ln "<h2>Two words</h2>", 1).
Proof.
  assert (heading_form (strip (ln "## Two words")) 2 (ch " ") (py "Two words"))
    as Hf.
  { repeat split; [lia|lia|discriminate]. }
  split; [reflexivity|]. split; [exact Hf|].
  rewrite (proj1 (heading_block [ln "## Two words"] 0 (ln "## Two words") eq_refl)
             2 (ch " ") (py "Two words") Hf).
  vm_compute. reflexivity.
Defined.

(** C3 (unordered list).  At a line that starts with ["- "] the scan
    consumes the longest run of lines that start with ["- "], writes
    [<ul>], one [<li>item</li>] per line of the run (the text after the
    marker, trimmed and transformed) and [</ul>], and advances the cursor
    by the length of the run; the line after the run, if any, does not
    start with ["- "].  The lines ["- a"], ["- b"] and a blank line give the
    two-item list and the cursor stops at the blank line. *)
Theorem unordered_list_block lines i line :
  lines !! i = Some line → startswith (py "- ") line = true →
  let run := take_while (startswith (py "- ")) (drop i lines) in
  scan_step lines i
    = (items ← mapM item_of run;
       Ok (list_html (py "<ul>") (py "</ul>") items, i + length run))
  ∧ 1 ≤ length run
  ∧ (∀ next, lines !! (i + length run) = Some next →
             startswith (py "- ") next = false)
  ∧ scan_step [ln "- a"; ln "- b"; [nl]] 0
    = Ok (ln "<ul>" ++ ln "<li>a</li>" ++ ln "<li>b</li>" ++ ln "</ul>", 2)
  ∧ scan 3 [ln "- a"; ln "- b"; [nl]] 0 []
    = Some (ln "<ul>" ++ ln "<li>a</li>" ++ ln "<li>b</li>" ++ ln "</ul>", None).
Proof.
  intros Hi Hs run. split; [by apply (ul_step lines i line)|].
  split; [|split; [|split]].
  - unfold run. rewrite (drop_S _ _ _ Hi). cbn [take_while]. rewrite Hs. cbn. lia.
  - intros next. apply run_maximal.
  - by vm_compute.
  - by vm_compute.
Qed.

Lemma unordered_list_block_witness :
  [ln "- x"; ln "- y"; ln "z"] !! 0 = Some (ln "- x")
  ∧ startswith (py "- ") (ln "- x") = true
  ∧ scan_step [ln "- x"; ln "- y"; ln "z"] 0
    = Ok (ln "<ul>" ++ ln "<li>x</li>" ++ ln "<li>y</li>" ++ ln "</ul>", 2).
Proof.
  split; [reflexivity|]. split; [reflexivity|].
  rewrite (proj1 (unordered_list_block [ln "- x"; ln "- y"; ln "z"] 0 (ln "- x")
                    eq_refl eq_refl)).
  vm_compute. reflexivity.
Defined.

(** C4 (bold and emphasis).  A span [**X**] becomes [<b>X</b>] and a span
    [__X__] becomes [<em>X</em>], two different tags, for every content [X]
    on one line; the text before the span is kept and the text after it is
    transformed in the same way, so every span of the line is replaced
    (here [pre] and [X] hold no character that opens a span).  For every
    text, the first pass replaces every span [**X**] of shortest content,
    from left to right, the second pass does so for [__X__] on the result of
    the first, and the transformer is the four passes in a row. *)
Theorem bold_and_emphasis pre X post :
  plain pre = true → plain X = true → single_line X = true →
  parse_inline_markdown (pre ++ py "**" ++ X ++ py "**" ++ post)
    = ((λ r, pre ++ py "<b>" ++ X ++ py "</b>" ++ r)
         <$> parse_inline_markdown post)
  ∧ parse_inline_markdown (pre ++ py "__" ++ X ++ py "__" ++ post)
    = ((λ r, pre ++ py "<em>" ++ X ++ py "</em>" ++ r)
         <$> parse_inline_markdown post)
  ∧ parse_inline_markdown (py "**bold**") = Ok (py "<b>bold</b>")
  ∧ parse_inline_markdown (py "__em__") = Ok (py "<em>em</em>")
  ∧ (∀ text r,
       replaced (ch "*") (ch "*") (λ Y, Ok (py "<b>" ++ Y ++ py "</b>")) text r
       ↔ pass_bold text = r)
  ∧ (∀ text r,
       replaced (ch "_") (ch "_") (λ Y, Ok (py "<em>" ++ Y ++ py "</em>")) text r
       ↔ pass_em text = r)
  ∧ (∀ text,
       parse_inline_markdown text
       = (t1 ← pass_bold text; t2 ← pass_em t1; t3 ← pass_md5 t2; pass_strip t3)).
Proof.
  intros Hpre HX Hl. split; [by apply inline_bold|].
  split; [by apply inline_em|]. split; [by vm_compute|]. split; [by vm_compute|].
  split; [apply pass_bold_replaced|]. split; [apply pass_em_replaced|].
  apply parse_inline_passes.
Qed.

Lemma bold_and_emphasis_witness :
  plain (py "a ") = true ∧ plain (py "b") = true ∧ single_line (py "b") = true
  ∧ parse_inline_markdown
      (py "a " ++ py "**" ++ py "b" ++ py "**" ++ py " __c__ **d**")
    = Ok (py "a <b>b</b> <em>c</em> <b>d</b>").
Proof.
  split; [reflexivity|]. split; [reflexivity|]. split; [reflexivity|].
  rewrite (proj1 (bold_and_emphasis (py "a ") (py "b") (py " __c__ **d**")
                    eq_refl eq_refl eq_refl)).
  vm_compute. reflexivity.
Defined.

(** C5 (content hash).  A span [[[X]]] becomes the MD5 digest of the UTF-8
    bytes of [X]: thirty-two characters, each a digit or a letter from [a]
    to [f]; [X] itself is not copied; the text before the span is kept and
    the text after it is transformed in the same way (here [pre] and [X]
    hold no character that opens a span and ["]]"] first occurs where the
    span ends).  ["[[abc]]"] becomes the digest of ["abc"].  For every text,
    the third pass replaces every span [[[X]]] of shortest content, from
    left to right, by the digest of [X]; equal contents have equal
    digests. *)
Theorem hash_span pre X post :
  plain pre = true → plain X = true → single_line X = true →
  shortest (ch "]") X = true →
  parse_inline_markdown (pre ++ py "[[" ++ X ++ py "]]" ++ post)
    = (d ← md5_hash X; (λ r, pre ++ d ++ r) <$> parse_inline_markdown post)
  ∧ (∀ Y bs, encode Y = Ok bs →
       md5_hash Y = Ok (MD5.hexdigest bs)
       ∧ length (MD5.hexdigest bs) = 32
       ∧ forallb is_hex (MD5.hexdigest bs) = true)
  ∧ parse_inline_markdown (py "[[abc]]")
    = Ok (py "900150983cd24fb0d6963f7d28e17f72")
  ∧ (∀ text r,
       replaced (ch "[") (ch "]") md5_hash text r ↔ pass_md5 text = r)
  ∧ (∀ Y1 Y2, Y1 = Y2 → md5_hash Y1 = md5_hash Y2).
Proof.
  intros Hpre HX Hl Hs. split; [by apply inline_md5|].
  split; [|split; [by vm_compute|split; [apply pass_md5_replaced|by intros ? ? ->]]].
  intros Y bs Hbs. unfold md5_hash. rewrite Hbs.
  split; [done|]. split; [apply hexdigest_length|apply hexdigest_hex].
Qed.

Lemma hash_span_witness :
  plain (py "id ") = true ∧ plain (py "a]b") = true
  ∧ single_line (py "a]b") = true ∧ shortest (ch "]") (py "a]b") = true
  ∧ parse_inline_markdown (py "id " ++ py "[[" ++ py "a]b" ++ py "]]" ++ py "!")
    = Ok (py "id edcaa8a291b373081be581cd656d6576!").
Proof.
  split; [reflexivity|]. split; [reflexivity|]. split; [reflexivity|].
  split; [reflexivity|].
  rewrite (proj1 (hash_span (py "id ") (py "a]b") (py "!")
                    eq_refl eq_refl eq_refl eq_refl)).
  vm_compute. reflexivity.
Defined.

(** C6 (strip).  A span [((X))] becomes [X] without its letters [c] and
    [C], the other characters kept in their order; the text before the span
    is kept and the text after it is transformed in the same way (here [pre]
    and [X] hold no character that opens a span and ["))"] first occurs
    where the span ends).  ["((cocoa))"] becomes ["ooa"].  For every text,
    the fourth pass replaces every span [((X))] of shortest content, from
    left to right, by [X] without [c] and [C]. *)
Theorem strip_span pre X post :
  plain pre = true → plain X = true → single_line X = true →
  shortest (ch ")") X = true →
  parse_inline_markdown (pre ++ py "((" ++ X ++ py "))" ++ post)
    = ((λ r, pre ++ List.filter (λ a, negb (is_c a)) X ++ r)
         <$> parse_inline_markdown post)
  ∧ parse_inline_markdown (py "((cocoa))") = Ok (py "ooa")
  ∧ (∀ Y, remove_c Y = Ok (List.filter (λ a, negb (is_c a)) Y))
  ∧ (∀ text r,
       replaced (ch "(") (ch ")") remove_c text r ↔ pass_strip text = r).
Proof.
  intros Hpre HX Hl Hs. split; [by apply inline_strip|].
  split; [by vm_compute|]. split; [apply remove_c_filter|].
  apply pass_strip_replaced.
Qed.

Lemma strip_span_witness :
  plain (py "x") = true ∧ plain (py "Cc)aCb") = true
  ∧ single_line (py "Cc)aCb") = true ∧ shortest (ch ")") (py "Cc)aCb") = true
  ∧ parse_inline_markdown
      (py "x" ++ py "((" ++ py "Cc)aCb" ++ py "))" ++ py "((c))y")
    = Ok (py "x)aby").
Proof.
  split; [reflexivity|]. split; [reflexivity|]. split; [reflexivity|].
  split; [reflexivity|].
  rewrite (proj1 (strip_span (py "x") (py "Cc)aCb") (py "((c))y")
                    eq_refl eq_refl eq_refl eq_refl)).
  vm_compute. reflexivity.
Defined.

(** C7 (ordered list).  At a line that starts with ["* "] the scan does
    what it does for an unordered list, with the marker ["* "] and the tags
    [<ol>] and [</ol>]: it consumes the longest run of lines that start with
    ["* "], writes one [<li>item</li>] per line inside one [<ol>] block and
    advances the cursor by the length of the run. *)
Theorem ordered_list_block lines i line :
  lines !! i = Some line → startswith (py "* ") line = true →
  let run := take_while (startswith (py "* ")) (drop i lines) in
  scan_step lines i
    = (items ← mapM item_of run;
       Ok (list_html (py "<ol>") (py "</ol>") items, i + length run))
  ∧ 1 ≤ length run
  ∧ (∀ next, lines !! (i + length run) = Some next →
             startswith (py "* ") next = false).
Proof.
  intros Hi Hs run. split; [by apply (ol_step lines i line)|]. split.
  - unfold run. rewrite (drop_S _ _ _ Hi). cbn [take_while]. rewrite Hs. cbn. lia.
  - intros next. apply run_maximal.
Qed.

Lemma ordered_list_block_witness :
  [ln "# h"; ln "* x"; ln "*  **y**"; ln "- z"] !! 1 = Some (ln "* x")
  ∧ startswith (py "* ") (ln "* x") = true
  ∧ scan_step [ln "# h"; ln "* x"; ln "*  **y**"; ln "- z"] 1
    = Ok (ln "<ol>" ++ ln "<li>x</li>" ++ ln "<li><b>y</b></li>" ++ ln "</ol>", 3).
Proof.
  split; [reflexivity|]. split; [reflexivity|].
  rewrite (proj1 (ordered_list_block
                    [ln "# h"; ln "* x"; ln "*  **y**"; ln "- z"] 1 (ln "* x")
                    eq_refl eq_refl)).
  vm_compute. reflexivity.
Defined.

(** C8 (plain text).  Text with none of the pairs [**], [__], [[[], []]],
    [((] and [))] is returned unchanged. *)
Theorem plain_text_unchanged text :
  no_markup text = true → parse_inline_markdown text = Ok text.
Proof.
  unfold no_markup. intros H.
  repeat (apply andb_prop in H as [H ?]).
  apply inline_id; by apply negb_true_iff.
Qed.

Lemma plain_text_unchanged_witness :
  no_markup (py "a * b _ c [x] (y) - # 2*3") = true
  ∧ parse_inline_markdown (py "a * b _ c [x] (y) - # 2*3")
    = Ok (py "a * b _ c [x] (y) - # 2*3").
Proof.
  split; [reflexivity|].
  exact (plain_text_unchanged (py "a * b _ c [x] (y) - # 2*3") eq_refl).
Defined.

(** C9 as stated fails: with both file arguments given and the input file
    present, a run whose output path lies in a directory that does not
    exist neither performs the conversion nor signals normal completion.
    [open(output_file, 'w')] raises [FileNotFoundError], nothing catches it,
    and the process ends with status 1 and neither of the two messages. *)
Lemma driver_open_fails :
  let argv := [py "markdown2html.py"; py "a.md"; py "nodir/b.html"] in
  let fs : gmap (list N) (list N) := {[py "a.md" := ln "# Title"]} in
  3 ≤ length argv
  ∧ os_path_exists fs (py "a.md") = true
  ∧ (∀ fuel, main fuel argv fs = Some (fs, Uncaught FileNotFoundError))
  ∧ status (Uncaught FileNotFoundError) = 1
  ∧ ¬ ∃ fuel fs', converts fuel (py "a.md") (py "nodir/b.html") fs fs'.
Proof.
  cbv zeta. split; [cbn; lia|]. split; [by vm_compute|].
  split; [|split; [done|]].
  - intros fuel. unfold main. cbn [length Nat.ltb Nat.leb].
    change (default [] (_ !! 1)) with (py "a.md").
    change (default [] (_ !! 2)) with (py "nodir/b.html").
    assert (os_path_exists ({[py "a.md" := ln "# Title"]} : gmap (list N) (list N))
              (py "a.md") = true) as -> by (by vm_compute).
    cbn [negb]. unfold convert_markdown_to_html.
    assert (os_open_r ({[py "a.md" := ln "# Title"]} : gmap (list N) (list N))
              (py "a.md") = Ok (py "a.md")) as -> by (by vm_compute).
    assert (os_open_w ({[py "a.md" := ln "# Title"]} : gmap (list N) (list N))
              (py "nodir/b.html")
            = ({[py "a.md" := ln "# Title"]}, Raise FileNotFoundError)) as ->
      by (by vm_compute).
    reflexivity.
  - intros (fuel & fs' & md_file & html_file & lines & frs & w1 & w2 & w3
            & _ & Hw & _).
    vm_compute in Hw. discriminate Hw.
Qed.

(** C9, amended (driver).  The run ends with the usage message and status 1
    exactly when fewer than two file arguments are given; with the message
    [Missing <input>] and status 1, a different message, exactly when two
    are given and the input path does not exist.  In all other cases the
    conversion is attempted.  The run ends with status 0 exactly when it
    goes through: both files are opened, the lines are read, the scan
    raises nothing, every fragment is written and both files are closed.
    Otherwise the exception that left the conversion is not caught, and the
    status is 1.  [fuel] exceeds the number of lines read. *)
Theorem driver_outcomes `{OS world} (fuel : nat) (argv : list (list N))
    (w : world) :
  let input_file := default [] (argv !! 1) in
  let output_file := default [] (argv !! 2) in
  (∀ md_file w1 html_file lines,
     os_open_r w input_file = Ok md_file →
     os_open_w w output_file = (w1, Ok html_file) →
     os_readlines w1 md_file = Ok lines → length lines < fuel) →
  ∃ w' o,
    main fuel argv w = Some (w', o)
    ∧ (o = Exit 1 usage ↔ length argv < 3)
    ∧ (o = Exit 1 (missing input_file)
       ↔ 3 ≤ length argv ∧ os_path_exists w input_file = false)
    ∧ (o = Exit 0 []
       ↔ 3 ≤ length argv ∧ os_path_exists w input_file = true
         ∧ converts fuel input_file output_file w w')
    ∧ (∀ e, o = Uncaught e
            ↔ 3 ≤ length argv ∧ os_path_exists w input_file = true
              ∧ convert_markdown_to_html fuel input_file output_file w
                = Some (w', Some e))
    ∧ ((∃ e, o = Uncaught e)
       ↔ 3 ≤ length argv ∧ os_path_exists w input_file = true
         ∧ ¬ ∃ w'', converts fuel input_file output_file w w'')
    ∧ (status o = 0 ↔ o = Exit 0 [])
    ∧ missing input_file ≠ usage.
Proof.
  intros input_file output_file Hfuel.
  assert (missing input_file ≠ usage) as Hdistinct.
  { intros Hm. vm_compute in Hm. discriminate Hm. }
  unfold main. destruct (length argv <? 3) eqn:Eargs.
  { apply Nat.ltb_lt in Eargs. exists w, (Exit 1 usage).
    split; [done|]. split; [done|].
    split. { split; [|lia]. intros Hm. exfalso. apply Hdistinct. congruence. }
    split. { split; [done|lia]. }
    split. { intros e. split; [done|lia]. }
    split. { split; [by intros [e [=]]|lia]. }
    split; [|done]. by cbn. }
  apply Nat.ltb_ge in Eargs. fold input_file output_file.
  destruct (os_path_exists w input_file) eqn:Eex; cbn [negb].
  2:{ exists w, (Exit 1 (missing input_file)).
      split; [done|].
      split. { split; [|lia]. intros Hm. exfalso. apply Hdistinct. congruence. }
      split; [done|].
      split. { split; [done|by intros (_ & [=] & _)]. }
      split. { intros e. split; [done|by intros (_ & [=] & _)]. }
      split. { split; [by intros [e [=]]|by intros (_ & [=] & _)]. }
      split; [|done]. by cbn. }
  destruct (convert_enough_fuel fuel input_file output_file w Hfuel)
    as [[w' e] Hc].
  rewrite Hc. cbn. destruct e as [e|].
  - exists w', (Uncaught e).
    split; [done|]. split; [split; [done|lia]|].
    split; [split; [done|by intros [_ [=]]]|].
    split. { split; [done|]. intros (_ & _ & Hconv).
             apply converts_iff in Hconv. congruence. }
    split. { intros e0. split; [by intros [= <-]|by intros (_ & _ & [= <-])]. }
    split. { split; [|by eauto]. intros _. split; [done|]. split; [done|].
             intros [w'' Hconv]. apply converts_iff in Hconv. congruence. }
    split; [|done]. by cbn.
  - exists w', (Exit 0 []).
    split; [done|]. split; [split; [done|lia]|].
    split; [split; [done|by intros [_ [=]]]|].
    split. { split; [|done]. intros _. split; [done|]. split; [done|].
             by apply converts_iff. }
    split. { intros e0. split; [done|by intros (_ & _ & [=])]. }
    split. { split; [by intros [e [=]]|]. intros (_ & _ & Hn). exfalso.
             apply Hn. exists w'. by apply converts_iff. }
    split; [|done]. by cbn.
Qed.

Lemma driver_outcomes_witness :
  ∃ fs' o,
    main 2 [py "markdown2html.py"; py "README.md"; py "README.html"]
      ({[py "README.md" := ln "# Title"]} : gmap (list N) (list N))
    = Some (fs', o)
    ∧ o = Exit 0 []
    ∧ fs' !! py "README.html" = Some (ln "<h1>Title</h1>")
    ∧ converts 2 (py "README.md") (py "README.html")
        {[py "README.md" := ln "# Title"]} fs'.
Proof.
  destruct (driver_outcomes 2
              [py "markdown2html.py"; py "README.md"; py "README.html"]
              ({[py "README.md" := ln "# Title"]} : gmap (list N) (list N)))
    as (fs' & o & Hmain & _ & _ & Hconv & _).
  - intros md_file w1 html_file lines Hr Hw Hl.
    vm_compute in Hr. injection Hr as <-.
    vm_compute in Hw. injection Hw as <- <-.
    vm_compute in Hl. injection Hl as <-. cbn. lia.
  - exists fs', o. split; [exact Hmain|].
    assert (main 2 [py "markdown2html.py"; py "README.md"; py "README.html"]
              ({[py "README.md" := ln "# Title"]} : gmap (list N) (list N))
            = Some (<[py "README.html" := ln "<h1>Title</h1>"]>
                      {[py "README.md" := ln "# Title"]}, Exit 0 [])) as Hrun
      by (vm_compute; reflexivity).
    rewrite Hrun in Hmain. injection Hmain as <- <-.
    split; [reflexivity|]. split; [by rewrite lookup_insert_eq|].
    by apply Hconv.
Defined.

(** C10 (termination).  Every iteration of the scan moves the cursor
    forward: a list or a paragraph that is recognised reports a size of at
    least 1, a heading and the fallback advance by 1.  Hence the loop ends:
    with more fuel than lines are left, the scan returns. *)
Theorem scan_terminates lines :
  (∀ i html i', scan_step lines i = Ok (html, i') → i < i')
  ∧ (∀ block html n,
       parse_unordered_list block = Ok (Some (html, n))
       ∨ parse_ordered_list block = Ok (Some (html, n))
       ∨ parse_paragraph block = Ok (Some (html, n)) → 1 ≤ n)
  ∧ (∀ fuel i out, length lines - i < fuel → is_Some (scan fuel lines i out)).
Proof.
  split; [|split].
  - intros i html i'. apply scan_step_progress.
  - intros block html n [H|[H|H]].
    + by eapply unordered_count.
    + by eapply ordered_count.
    + by eapply paragraph_count.
  - apply scan_enough_fuel.
Qed.

Lemma scan_terminates_witness :
  length [ln "a"; ln "b"; [nl]; ln "- c"] - 0 < 5
  ∧ is_Some (scan 5 [ln "a"; ln "b"; [nl]; ln "- c"] 0 [])
  ∧ 0 < 3.
Proof.
  split; [cbn; lia|]. split.
  - apply (proj2 (proj2 (scan_terminates [ln "a"; ln "b"; [nl]; ln "- c"]))).
    cbn. lia.
  - apply (proj1 (scan_terminates [ln "a"; ln "b"; [nl]; ln "- c"])
             0 (para_html [py "a"; py "b"]) 3).
    vm_compute. reflexivity.
Defined.

(** * Further properties of the code *)

(** ** Paragraphs and blank lines *)

Lemma para_step lines i line :
  lines !! i = Some line →
  parse_headings (strip line) = Ok None →
  startswith (py "- ") line = false → startswith (py "* ") line = false →
  nonblank line = true →
  scan_step lines i =
  texts ← mapM (λ l, parse_inline_markdown (strip l))
                (take_while nonblank (drop i lines));
  Ok (para_html texts, i + (2 * length (take_while nonblank (drop i lines)) - 1)).
Proof.
  intros Hi Hh Hu Ho Hb. unfold scan_step. rewrite Hi.
  change (default [] (Some line)) with line. rewrite Hh, bind_Ok.
  rewrite (drop_S _ _ _ Hi).
  rewrite parse_unordered_list_other by (by intros ? ? [= <- <-]).
  rewrite bind_Ok.
  rewrite parse_ordered_list_other by (by intros ? ? [= <- <-]).
  rewrite bind_Ok, parse_paragraph_spec by done.
  destruct (mapM _ _) as [texts|] eqn:E; [|done]. rewrite !bind_Ok.
  by rewrite (mapM_length _ _ _ E).
Qed.

(** X1 (paragraph block).  At a line that is not blank, is no heading and
    starts with neither list marker, the scan consumes the longest run of
    lines that are not blank (whatever the later ones start with), writes
    [<p>], the trimmed and transformed lines with a [<br/>] line between
    two of them, and [</p>]; the cursor advances by [2k - 1] for a run of
    [k] lines, and the line after the run, if any, is blank. *)
Theorem paragraph_block lines i line :
  lines !! i = Some line →
  (∀ level w content, ¬ heading_form (strip line) level w content) →
  startswith (py "- ") line = false → startswith (py "* ") line = false →
  nonblank line = true →
  let run := take_while nonblank (drop i lines) in
  scan_step lines i
    = (texts ← mapM (λ l, parse_inline_markdown (strip l)) run;
       Ok (para_html texts, i + (2 * length run - 1)))
  ∧ 1 ≤ length run
  ∧ (∀ next, lines !! (i + length run) = Some next → strip next = []).
Proof.
  intros Hi Hh Hu Ho Hb run. split; [|split].
  - apply (para_step lines i line); try done. by apply parse_headings_other.
  - unfold run. rewrite (drop_S _ _ _ Hi). cbn [take_while]. rewrite Hb. cbn. lia.
  - intros next Hn. apply run_maximal in Hn. unfold nonblank in Hn.
    apply negb_false_iff in Hn. by destruct (strip next).
Qed.

Lemma paragraph_block_witness :
  scan_step [ln "one"; ln "  - two"; ln "# three"; [nl]; ln "four"] 0
  = Ok (ln "<p>" ++ ln "one" ++ ln "<br/>" ++ ln "- two" ++ ln "<br/>"
          ++ ln "# three" ++ ln "</p>", 5).
Proof.
  rewrite (proj1 (paragraph_block
                    [ln "one"; ln "  - two"; ln "# three"; [nl]; ln "four"] 0
                    (ln "one") eq_refl
                    ltac:(intros level w content ([H1 _] & _ & _ & _ & H);
                          destruct level; [lia|];
                          vm_compute in H; discriminate H)
                    eq_refl eq_refl eq_refl)).
  vm_compute. reflexivity.
Defined.

Lemma strip_empty line :
  strip line = [] → line = [] ∨ ∃ w rest, line = w :: rest ∧ isspace w = true.
Proof.
  destruct line as [|w rest]; [by left|]. intros H. right. exists w, rest.
  split; [done|]. destruct (isspace w) eqn:E; [done|].
  destruct (strip_cons w rest E) as [s' Hs]. congruence.
Qed.

Lemma blank_no_marker a b line :
  isspace a = false → strip line = [] → startswith [a; b] line = false.
Proof.
  intros Ha [->|(w & rest & -> & Hw)]%strip_empty; [done|]. cbn.
  assert ((a =? w)%N = false) as ->; [|done].
  apply N.eqb_neq. intros ->. congruence.
Qed.

Lemma blank_step lines i line :
  lines !! i = Some line → strip line = [] → scan_step lines i = Ok ([], i + 1).
Proof.
  intros Hi Hb. unfold scan_step. rewrite Hi.
  change (default [] (Some line)) with line. rewrite Hb.
  change (parse_headings []) with (Ok (@None (list N))). rewrite bind_Ok.
  rewrite (drop_S _ _ _ Hi).
  rewrite parse_unordered_list_other
    by (intros ? ? [= <- <-]; by apply (blank_no_marker (ch "-") (ch " "))).
  rewrite bind_Ok.
  rewrite parse_ordered_list_other
    by (intros ? ? [= <- <-]; by apply (blank_no_marker (ch "*") (ch " "))).
  rewrite bind_Ok.
  rewrite parse_paragraph_other; [done|].
  intros ? ? [= <- <-]. unfold nonblank. by rewrite Hb.
Qed.

(** X2 (blank lines).  A blank line (nothing but whitespace) writes
    nothing and moves the cursor by 1; a document of blank lines only, of
    any length, gives an empty output. *)
Theorem blank_lines_write_nothing lines :
  Forall (λ line, strip line = []) lines →
  (∀ i, i < length lines → scan_step lines i = Ok ([], i + 1))
  ∧ ∀ fuel i out, length lines - i < fuel →
      scan fuel lines i out = Some (out, None).
Proof.
  intros Hall.
  assert (∀ i, i < length lines → scan_step lines i = Ok ([], i + 1)) as Hstep.
  { intros i Hi. destruct (lookup_lt_is_Some_2 lines i Hi) as [line Hl].
    apply (blank_step lines i line Hl). by eapply (Forall_lookup_1 _ _ _ _ Hall). }
  split; [done|].
  induction fuel as [|fuel IH]; intros i out Hf; [lia|]. cbn [scan].
  destruct (i <? length lines) eqn:Ei; [|done]. apply Nat.ltb_lt in Ei.
  rewrite (Hstep i Ei), app_nil_r. apply IH. lia.
Qed.

Lemma blank_lines_write_nothing_witness :
  scan 4 [[nl]; py "  " ++ [9%N; nl]; []] 0 (py "kept") = Some (py "kept", None).
Proof.
  apply (proj2 (blank_lines_write_nothing [[nl]; py "  " ++ [9%N; nl]; []]
                  ltac:(repeat constructor))).
  cbn. lia.
Defined.

(** ** Headings at their limits *)

Lemma take_while_replicate_ge (p : pychar → bool) n c s :
  p c = true → n ≤ length (take_while p (replicate n c ++ s)).
Proof.
  intros Hc. induction n as [|n IH]; cbn; [lia|]. rewrite Hc. cbn. lia.
Qed.

Lemma take_while_app_stop {A} (p : A → bool) l a r :
  forallb p l = true → p a = false → take_while p (l ++ a :: r) = l.
Proof.
  intros Hl Ha. induction l as [|b l IH]; cbn.
  - by rewrite Ha.
  - cbn in Hl. apply andb_prop in Hl as [Hb Hl]. by rewrite Hb, IH.
Qed.

(** X3 (heading bounds).  Seven or more [#] at the start of a line make no
    heading, whatever follows; neither does a line of [#] only, which has
    no content. *)
Theorem heading_bounds n s :
  (7 ≤ n → parse_headings (replicate n (ch "#") ++ s) = Ok None)
  ∧ parse_headings (replicate n (ch "#")) = Ok None.
Proof.
  split.
  - intros Hn. unfold parse_headings. rewrite heading_match. unfold heading_parts.
    pose proof (take_while_replicate_ge (N.eqb (ch "#")) n (ch "#") s
                  (N.eqb_refl _)) as Hlen.
    assert ((length (take_while (N.eqb (ch "#")) (replicate n (ch "#") ++ s))
             <=? 6) = false) as -> by (apply Nat.leb_gt; lia).
    by rewrite andb_false_r.
  - replace (replicate n (ch "#")) with (replicate n (ch "#") ++ [])
      by apply app_nil_r.
    unfold parse_headings. rewrite heading_match. unfold heading_parts.
    rewrite take_while_replicate by (apply N.eqb_refl || done).
    rewrite length_replicate.
    rewrite drop_app_length' by (by rewrite length_replicate).
    by destruct (_ && _).
Qed.

Lemma heading_bounds_witness :
  parse_headings (replicate 7 (ch "#") ++ py " seven") = Ok None.
Proof.
  apply (proj1 (heading_bounds 7 (py " seven"))). lia.
Defined.

(** X4 (heading with its newline).  [parse_headings] gives the same
    fragment for a heading line that still ends with its newline as for the
    trimmed line: [$] also matches before a final newline. *)
Theorem heading_before_newline t level w content :
  heading_form t level w content →
  parse_headings (t ++ [nl]) = parse_headings t.
Proof.
  intros Hf. rewrite (parse_headings_form _ _ _ _ Hf).
  destruct Hf as ([Hl1 Hl6] & Hw & Hc & Hline & ->).
  unfold parse_headings. rewrite heading_match. unfold heading_parts.
  rewrite <- app_assoc.
  rewrite take_while_replicate; [|apply N.eqb_refl|].
  2:{ intros a s' [= <- <-]. apply N.eqb_neq. intros <-. done. }
  rewrite length_replicate.
  assert ((1 <=? level) && (level <=? 6) = true) as ->.
  { apply andb_true_intro. split; by apply Nat.leb_le. }
  rewrite drop_app_length' by (by rewrite length_replicate).
  cbn [app]. rewrite Hw.
  rewrite (take_while_app_stop dot content nl [] Hline eq_refl).
  assert ((1 <=? length content) = true) as ->.
  { apply Nat.leb_le. destruct content; [done|]. cbn. lia. }
  rewrite drop_app_length. cbn [fmap option_fmap option_map group Nat.eqb].
  rewrite N.eqb_refl. cbn [fmap option_fmap option_map group Nat.eqb].
  by rewrite length_replicate.
Qed.

Lemma heading_before_newline_witness :
  parse_headings (py "### a b" ++ [nl]) = Ok (Some (ln "<h3>a b</h3>")).
Proof.
  rewrite (heading_before_newline (py "### a b") 3 (ch " ") (py "a b")).
  - vm_compute. reflexivity.
  - repeat split; [lia|lia|discriminate].
Defined.

(** ** Markup that is not closed *)

Lemma scan_close_no_pair c s : contains [c; c] s = false → scan_close c s = None.
Proof.
  induction s as [|a s IH]; [done|]. cbn [contains scan_close].
  intros [Hs Hc]%orb_false_elim. rewrite Hs, (IH Hc).
  by destruct (dot a).
Qed.

Lemma lacks_no_pair c s : lacks c s = true → contains [c; c] s = false.
Proof.
  induction s as [|a s IH]; cbn [lacks forallb contains]; [done|].
  intros [Ha Hs]%andb_prop. rewrite (IH Hs), orb_false_r.
  cbn. rewrite (N.eqb_sym c a). apply negb_true_iff in Ha. by rewrite Ha.
Qed.

Lemma lacks_head c a s : lacks c (a :: s) = true → a ≠ c.
Proof. cbn. intros [Ha _]%andb_prop. by apply negb_true_iff, N.eqb_neq in Ha. Qed.

Lemma sub_delim_unclosed o c repl pre rest :
  lacks (ch o) pre = true → lacks (ch o) rest = true →
  contains [ch c; ch c] rest = false →
  re_sub (delim_pattern o c) repl (pre ++ ch o :: ch o :: rest)
  = Ok (pre ++ ch o :: ch o :: rest).
Proof.
  intros Hpre Hrest Hc. rewrite sub_delim_prefix by done.
  rewrite sub_delim_skip.
  2:{ cbn. rewrite N.eqb_refl. cbn. by apply scan_close_no_pair. }
  rewrite sub_delim_id; [done|]. cbn [contains].
  rewrite (lacks_no_pair _ _ Hrest), orb_false_r.
  destruct rest as [|a rest]; cbn; [by rewrite andb_false_r|].
  apply lacks_head in Hrest. rewrite N.eqb_refl. cbn.
  assert ((ch o =? a)%N = false) as ->; [|done]. apply N.eqb_neq. congruence.
Qed.

Ltac no_pair_tac := apply lacks_no_pair; lacks_tac.

(** X5 (unclosed markup).  An opening pair that nothing closes is no error
    and stays in the text as it is: [**] or [__] followed by text without
    any opening character, and [[[] or [((] followed by such text without
    the closing pair.  A closing pair of another kind after [**] or [__]
    changes nothing. *)
Theorem unclosed_markup_kept pre rest :
  plain pre = true → plain rest = true →
  parse_inline_markdown (pre ++ py "**" ++ rest) = Ok (pre ++ py "**" ++ rest)
  ∧ parse_inline_markdown (pre ++ py "__" ++ rest) = Ok (pre ++ py "__" ++ rest)
  ∧ (contains (py "]]") rest = false →
     parse_inline_markdown (pre ++ py "[[" ++ rest) = Ok (pre ++ py "[[" ++ rest))
  ∧ (contains (py "))") rest = false →
     parse_inline_markdown (pre ++ py "((" ++ rest) = Ok (pre ++ py "((" ++ rest)).
Proof.
  intros Hpre Hrest.
  split; [|split; [|split; [intros Hsq|intros Hpar]]];
    rewrite parse_inline_passes.
  - unfold pass_bold at 1.
    rewrite (sub_delim_unclosed "*" "*" _ pre rest)
      by first [lacks_tac | no_pair_tac].
    rewrite bind_Ok, pass_em_id, bind_Ok by no_pair_tac.
    rewrite pass_md5_id, bind_Ok by no_pair_tac. apply pass_strip_id. no_pair_tac.
  - rewrite pass_bold_id, bind_Ok by no_pair_tac. unfold pass_em at 1.
    rewrite (sub_delim_unclosed "_" "_" _ pre rest)
      by first [lacks_tac | no_pair_tac].
    rewrite bind_Ok, pass_md5_id, bind_Ok by no_pair_tac.
    apply pass_strip_id. no_pair_tac.
  - rewrite pass_bold_id, bind_Ok by no_pair_tac.
    rewrite pass_em_id, bind_Ok by no_pair_tac. unfold pass_md5 at 1.
    rewrite (sub_delim_unclosed "[" "]" _ pre rest) by first [lacks_tac | done].
    rewrite bind_Ok. apply pass_strip_id. no_pair_tac.
  - rewrite pass_bold_id, bind_Ok by no_pair_tac.
    rewrite pass_em_id, bind_Ok by no_pair_tac.
    rewrite pass_md5_id, bind_Ok by no_pair_tac.
    apply (sub_delim_unclosed "(" ")" _ pre rest); first [lacks_tac | done].
Qed.

Lemma unclosed_markup_kept_witness :
  parse_inline_markdown (py "a " ++ py "**" ++ py "b]] c") = Ok (py "a **b]] c")
  ∧ parse_inline_markdown (py "a " ++ py "__" ++ py "b)) c") = Ok (py "a __b)) c")
  ∧ parse_inline_markdown (py "a " ++ py "[[" ++ py "b] c)") = Ok (py "a [[b] c)")
  ∧ parse_inline_markdown (py "a " ++ py "((" ++ py "b] c)") = Ok (py "a ((b] c)").
Proof.
  split; [|split; [|split]].
  - exact (proj1 (unclosed_markup_kept (py "a ") (py "b]] c") eq_refl eq_refl)).
  - exact (proj1 (proj2 (unclosed_markup_kept (py "a ") (py "b)) c")
                           eq_refl eq_refl))).
  - exact (proj1 (proj2 (proj2 (unclosed_markup_kept (py "a ") (py "b] c)")
                                  eq_refl eq_refl))) eq_refl).
  - exact (proj2 (proj2 (proj2 (unclosed_markup_kept (py "a ") (py "b] c)")
                                  eq_refl eq_refl))) eq_refl).
Defined.

Lemma scan_close_newline c X tail :
  lacks c X = true → c ≠ nl → scan_close c (X ++ nl :: tail) = None.
Proof.
  intros HX Hc. induction X as [|a X IH]; cbn [app scan_close].
  - cbn. assert ((c =? nl)%N = false) as -> by (by apply N.eqb_neq). done.
  - pose proof (lacks_head _ _ _ HX) as Ha.
    cbn in HX. apply andb_prop in HX as [_ HX].
    assert (startswith [c; c] (a :: X ++ nl :: tail) = false) as ->.
    { cbn. assert ((c =? a)%N = false) as ->; [|done]. apply N.eqb_neq. congruence. }
    rewrite (IH HX). by destruct (dot a).
Qed.

Lemma sub_delim_broken o c repl pre X1 tail :
  lacks (ch o) pre = true → lacks (ch o) X1 = true → lacks (ch c) X1 = true →
  ch o ≠ nl → ch c ≠ nl →
  re_sub (delim_pattern o c) repl (X1 ++ [nl] ++ tail) = Ok (X1 ++ [nl] ++ tail) →
  re_sub (delim_pattern o c) repl (pre ++ ch o :: ch o :: X1 ++ [nl] ++ tail)
  = Ok (pre ++ ch o :: ch o :: X1 ++ [nl] ++ tail).
Proof.
  intros Hpre Ho Hc Hno Hnc Htail. rewrite sub_delim_prefix by done.
  rewrite sub_delim_skip.
  2:{ cbn. rewrite N.eqb_refl. cbn. by apply scan_close_newline. }
  rewrite sub_delim_skip.
  2:{ apply match_delim_no_pair. cbn. rewrite N.eqb_refl. cbn.
      destruct X1 as [|a X1]; cbn.
      - assert ((ch o =? nl)%N = false) as -> by (by apply N.eqb_neq). done.
      - apply lacks_head in Ho.
        assert ((ch o =? a)%N = false) as ->; [|done]. apply N.eqb_neq. congruence. }
  by rewrite Htail.
Qed.

Ltac lacks_all :=
  rewrite ?lacks_app;
  repeat (apply andb_true_intro; split);
  first [ assumption | reflexivity
        | apply plain_lacks; [reflexivity | assumption] ].

Ltac no_pair_all := apply lacks_no_pair; lacks_all.

(** X6 (spans and line breaks).  A span does not reach over a newline: an
    opening pair whose closing pair comes only after a newline is left as
    it is, with the closing pair, for each of the four markers. *)
Theorem span_stays_on_one_line pre X1 X2 post :
  plain pre = true → plain X1 = true → plain X2 = true → plain post = true →
  lacks (ch "]") X1 = true → lacks (ch ")") X1 = true →
  parse_inline_markdown (pre ++ py "**" ++ X1 ++ [nl] ++ X2 ++ py "**" ++ post)
    = Ok (pre ++ py "**" ++ X1 ++ [nl] ++ X2 ++ py "**" ++ post)
  ∧ parse_inline_markdown (pre ++ py "__" ++ X1 ++ [nl] ++ X2 ++ py "__" ++ post)
    = Ok (pre ++ py "__" ++ X1 ++ [nl] ++ X2 ++ py "__" ++ post)
  ∧ parse_inline_markdown (pre ++ py "[[" ++ X1 ++ [nl] ++ X2 ++ py "]]" ++ post)
    = Ok (pre ++ py "[[" ++ X1 ++ [nl] ++ X2 ++ py "]]" ++ post)
  ∧ parse_inline_markdown (pre ++ py "((" ++ X1 ++ [nl] ++ X2 ++ py "))" ++ post)
    = Ok (pre ++ py "((" ++ X1 ++ [nl] ++ X2 ++ py "))" ++ post).
Proof.
  intros Hpre H1 H2 Hpost Hsq Hpar.
  assert (re_sub (delim_pattern "*" "*")
            (λ m, Ok (py "<b>" ++ group 1 m ++ py "</b>"))
            (X1 ++ [nl] ++ X2 ++ py "**" ++ post)
          = Ok (X1 ++ [nl] ++ X2 ++ py "**" ++ post)) as Hb.
  { rewrite !app_assoc, <- (app_assoc _ (py "**") post).
    apply (sub_delim_unclosed "*" "*"); first [lacks_all | no_pair_all]. }
  assert (re_sub (delim_pattern "_" "_")
            (λ m, Ok (py "<em>" ++ group 1 m ++ py "</em>"))
            (X1 ++ [nl] ++ X2 ++ py "__" ++ post)
          = Ok (X1 ++ [nl] ++ X2 ++ py "__" ++ post)) as He.
  { rewrite !app_assoc, <- (app_assoc _ (py "__") post).
    apply (sub_delim_unclosed "_" "_"); first [lacks_all | no_pair_all]. }
  split; [|split; [|split]]; rewrite parse_inline_passes.
  - unfold pass_bold at 1.
    rewrite (sub_delim_broken "*" "*" _ pre X1 (X2 ++ py "**" ++ post));
      [|lacks_all|lacks_all|lacks_all|done|done|exact Hb].
    change (pre ++ ch "*" :: ch "*" :: X1 ++ [nl] ++ X2 ++ py "**" ++ post)
      with (pre ++ py "**" ++ X1 ++ [nl] ++ X2 ++ py "**" ++ post).
    rewrite bind_Ok, pass_em_id, bind_Ok by no_pair_all.
    rewrite pass_md5_id, bind_Ok by no_pair_all.
    apply pass_strip_id. no_pair_all.
  - rewrite pass_bold_id, bind_Ok by no_pair_all. unfold pass_em at 1.
    rewrite (sub_delim_broken "_" "_" _ pre X1 (X2 ++ py "__" ++ post));
      [|lacks_all|lacks_all|lacks_all|done|done|exact He].
    change (pre ++ ch "_" :: ch "_" :: X1 ++ [nl] ++ X2 ++ py "__" ++ post)
      with (pre ++ py "__" ++ X1 ++ [nl] ++ X2 ++ py "__" ++ post).
    rewrite bind_Ok, pass_md5_id, bind_Ok by no_pair_all.
    apply pass_strip_id. no_pair_all.
  - rewrite pass_bold_id, bind_Ok by no_pair_all.
    rewrite pass_em_id, bind_Ok by no_pair_all. unfold pass_md5 at 1.
    rewrite (sub_delim_broken "[" "]" _ pre X1 (X2 ++ py "]]" ++ post));
      [|lacks_all|lacks_all|lacks_all|done|done|].
    2:{ apply sub_delim_id. no_pair_all. }
    change (pre ++ ch "[" :: ch "[" :: X1 ++ [nl] ++ X2 ++ py "]]" ++ post)
      with (pre ++ py "[[" ++ X1 ++ [nl] ++ X2 ++ py "]]" ++ post).
    rewrite bind_Ok. apply pass_strip_id. no_pair_all.
  - rewrite pass_bold_id, bind_Ok by no_pair_all.
    rewrite pass_em_id, bind_Ok by no_pair_all.
    rewrite pass_md5_id, bind_Ok by no_pair_all. unfold pass_strip.
    apply (sub_delim_broken "(" ")" _ pre X1 (X2 ++ py "))" ++ post));
      [lacks_all|lacks_all|lacks_all|done|done|].
    apply sub_delim_id. no_pair_all.
Qed.

Lemma span_stays_on_one_line_witness :
  parse_inline_markdown (py "a " ++ py "**" ++ py "b" ++ [nl] ++ py "c" ++ py "**" ++ py " d")
  = Ok (py "a **b" ++ [nl] ++ py "c** d").
Proof.
  exact (proj1 (span_stays_on_one_line (py "a ") (py "b") (py "c") (py " d")
                  eq_refl eq_refl eq_refl eq_refl eq_refl eq_refl)).
Defined.

(** ** Markup inside markup: the order of the passes *)

Lemma regroup3 (a X b s : pystr) : a ++ X ++ b ++ s = (a ++ X ++ b) ++ s.
Proof. by rewrite <- !app_assoc. Qed.

Lemma single_line_app s1 s2 :
  single_line (s1 ++ s2) = single_line s1 && single_line s2.
Proof. apply forallb_app. Qed.

(** X7 (bold inside a hash span).  The bold pass runs before the hash pass:
    for [[[**X**]]] the digest is the one of the converted text [<b>X</b>],
    not of [**X**]. *)
Theorem hash_of_converted_bold pre X post :
  plain pre = true → plain X = true → single_line X = true →
  lacks (ch "]") X = true →
  parse_inline_markdown
    (pre ++ py "[[" ++ py "**" ++ X ++ py "**" ++ py "]]" ++ post)
  = (d ← md5_hash (py "<b>" ++ X ++ py "</b>");
     (λ r, pre ++ d ++ r) <$> parse_inline_markdown post).
Proof.
  intros Hpre HX Hl Hsq. rewrite !parse_inline_passes.
  rewrite (app_assoc pre (py "[[")), pass_bold_prefix by lacks_all.
  rewrite pass_bold_span by (first [done | apply lacks_shortest; lacks_all]).
  rewrite pass_bold_prefix by lacks_all.
  destruct (pass_bold_total post) as [p1 ->]. rewrite !fmap_Ok, !bind_Ok.
  cbv beta. rewrite <- !app_assoc.
  replace (pre ++ py "[[" ++ py "<b>" ++ X ++ py "</b>" ++ py "]]" ++ p1)
    with ((pre ++ py "[[" ++ py "<b>" ++ X ++ py "</b>" ++ py "]]") ++ p1)
    by (by rewrite <- !app_assoc).
  rewrite pass_em_prefix by lacks_all.
  destruct (pass_em_total p1) as [p2 ->]. rewrite !fmap_Ok, !bind_Ok.
  rewrite <- !app_assoc, pass_md5_prefix by lacks_all.
  rewrite (regroup3 (py "<b>") X (py "</b>")).
  rewrite pass_md5_span.
  2:{ rewrite !single_line_app, Hl. reflexivity. }
  2:{ apply lacks_shortest. lacks_all. }
  unfold md5_hash.
  destruct (encode _) as [bs|]; [|done]. rewrite !bind_Ok.
  destruct (pass_md5 p2) as [p3|]; [|done]. rewrite !fmap_Ok, !bind_Ok.
  rewrite app_assoc, passes_from_strip by lacks_tac.
  destruct (pass_strip p3) as [r|]; [|done]. rewrite !fmap_Ok.
  by rewrite <- ?app_assoc.
Qed.

Lemma hash_of_converted_bold_witness :
  parse_inline_markdown
    (py "x " ++ py "[[" ++ py "**" ++ py "a" ++ py "**" ++ py "]]" ++ py "!")
  = (d ← md5_hash (py "<b>a</b>"); Ok (py "x " ++ d ++ py "!"))
  ∧ md5_hash (py "<b>a</b>") ≠ md5_hash (py "**a**").
Proof.
  split; [|by vm_compute].
  rewrite (hash_of_converted_bold (py "x ") (py "a") (py "!")
             eq_refl eq_refl eq_refl eq_refl).
  vm_compute. reflexivity.
Defined.

(** X8 (bold and emphasis nested).  Bold inside emphasis and emphasis
    inside bold are both converted, the inner span inside the outer tag. *)
Theorem bold_and_emphasis_nest pre X post :
  plain pre = true → plain X = true → single_line X = true →
  parse_inline_markdown
    (pre ++ py "__" ++ py "**" ++ X ++ py "**" ++ py "__" ++ post)
    = ((λ r, pre ++ py "<em>" ++ py "<b>" ++ X ++ py "</b>" ++ py "</em>" ++ r)
         <$> parse_inline_markdown post)
  ∧ parse_inline_markdown
      (pre ++ py "**" ++ py "__" ++ X ++ py "__" ++ py "**" ++ post)
    = ((λ r, pre ++ py "<b>" ++ py "<em>" ++ X ++ py "</em>" ++ py "</b>" ++ r)
         <$> parse_inline_markdown post).
Proof.
  intros Hpre HX Hl. split; rewrite !parse_inline_passes.
  - rewrite (app_assoc pre (py "__")), pass_bold_prefix by lacks_all.
    rewrite pass_bold_span by (first [done | apply lacks_shortest; lacks_all]).
    rewrite pass_bold_prefix by lacks_all.
    destruct (pass_bold post) as [p1|]; [|done]. rewrite !fmap_Ok, !bind_Ok.
    cbv beta. rewrite <- !app_assoc, pass_em_prefix by lacks_all.
    rewrite (regroup3 (py "<b>") X (py "</b>")).
    rewrite pass_em_span.
    2:{ rewrite !single_line_app, Hl. reflexivity. }
    2:{ apply lacks_shortest. lacks_all. }
    destruct (pass_em p1) as [p2|]; [|done]. rewrite !fmap_Ok, !bind_Ok.
    cbv beta. rewrite <- !app_assoc.
    replace (pre ++ py "<em>" ++ py "<b>" ++ X ++ py "</b>" ++ py "</em>" ++ p2)
      with ((pre ++ py "<em>" ++ py "<b>" ++ X ++ py "</b>" ++ py "</em>") ++ p2)
      by (by rewrite <- !app_assoc).
    rewrite passes_from_md5 by lacks_all.
    destruct (_ ≫= _) as [r|]; [|done]. rewrite !fmap_Ok.
    by rewrite <- !app_assoc.
  - rewrite pass_bold_prefix by lacks_all.
    rewrite (regroup3 (py "__") X (py "__")).
    rewrite pass_bold_span.
    2:{ rewrite !single_line_app, Hl. reflexivity. }
    2:{ apply lacks_shortest. lacks_all. }
    destruct (pass_bold post) as [p1|]; [|done]. rewrite !fmap_Ok, !bind_Ok.
    cbv beta. rewrite <- !app_assoc.
    rewrite (app_assoc pre (py "<b>")), pass_em_prefix by lacks_all.
    rewrite pass_em_span by (first [done | apply lacks_shortest; lacks_all]).
    rewrite pass_em_prefix by lacks_all.
    destruct (pass_em p1) as [p2|]; [|done]. rewrite !fmap_Ok, !bind_Ok.
    cbv beta. rewrite <- !app_assoc.
    replace (pre ++ py "<b>" ++ py "<em>" ++ X ++ py "</em>" ++ py "</b>" ++ p2)
      with ((pre ++ py "<b>" ++ py "<em>" ++ X ++ py "</em>" ++ py "</b>") ++ p2)
      by (by rewrite <- !app_assoc).
    rewrite passes_from_md5 by lacks_all.
    destruct (_ ≫= _) as [r|]; [|done]. rewrite !fmap_Ok.
    by rewrite <- !app_assoc.
Qed.

Lemma bold_and_emphasis_nest_witness :
  parse_inline_markdown
    (py "a " ++ py "**" ++ py "__" ++ py "b" ++ py "__" ++ py "**" ++ py " c")
  = Ok (py "a <b><em>b</em></b> c").
Proof.
  rewrite (proj2 (bold_and_emphasis_nest (py "a ") (py "b") (py " c")
                    eq_refl eq_refl eq_refl)).
  vm_compute. reflexivity.
Defined.

(** ** The one exception of the transformer *)

Lemma encode_char_encodable c bs : encode_char c = Ok bs → encodable c = true.
Proof.
  unfold encode_char, encodable.
  destruct (c <? 0x80)%N eqn:E1.
  { intros _. apply N.ltb_lt in E1. apply orb_true_iff. left. apply N.ltb_lt. lia. }
  destruct (c <? 0x800)%N eqn:E2.
  { intros _. apply N.ltb_lt in E2. apply orb_true_iff. left. apply N.ltb_lt. lia. }
  destruct (c <? 0x10000)%N eqn:E3.
  - destruct ((0xD800 <=? c) && (c <=? 0xDFFF))%N eqn:Es; [done|]. intros _.
    apply N.ltb_lt in E3. apply andb_false_iff in Es as [Es|Es]; apply N.leb_gt in Es.
    + apply orb_true_iff. left. by apply N.ltb_lt.
    + apply orb_true_iff. right. apply andb_true_iff.
      split; apply N.ltb_lt; lia.
  - destruct (c <? 0x110000)%N eqn:E4; [|done]. intros _.
    apply N.ltb_ge in E3. apply orb_true_iff. right. apply andb_true_iff.
    split; [apply N.ltb_lt; lia|done].
Qed.

Lemma encode_text_ok s bs : encode s = Ok bs → text_ok s = true.
Proof.
  revert bs. unfold text_ok.
  induction s as [|c s IH]; intros bs; cbn [encode forallb]; [done|].
  destruct (encode_char c) as [b|] eqn:Ec; [|done]. rewrite bind_Ok.
  destruct (encode s) as [bs'|]; [|done]. intros _.
  by rewrite (encode_char_encodable c b Ec), (IH bs').
Qed.

Lemma encode_raises s e : encode s = Raise e → e = UnicodeEncodeError.
Proof.
  induction s as [|c s IH]; cbn [encode]; [done|].
  destruct (encode_char c) as [b|e'] eqn:Ec.
  - rewrite bind_Ok. destruct (encode s) as [bs|e'']; [done|].
    intros [= <-]. by apply IH.
  - intros [= <-]. unfold encode_char in Ec.
    repeat (destruct (_ <? _)%N in Ec; try done);
      try (destruct (_ && _) in Ec); congruence.
Qed.

(** X9 (the encoding error).  [md5_hash] succeeds exactly on text without a
    surrogate code point and raises [UnicodeEncodeError] on any other text;
    a hash span with such a content makes the whole transformer raise it,
    whatever follows the span. *)
Theorem surrogate_raises pre X post :
  plain pre = true → plain X = true → single_line X = true →
  shortest (ch "]") X = true →
  (∀ s, (∃ d, md5_hash s = Ok d) ↔ text_ok s = true)
  ∧ (∀ s, md5_hash s = Raise UnicodeEncodeError ↔ text_ok s = false)
  ∧ (text_ok X = false →
     parse_inline_markdown (pre ++ py "[[" ++ X ++ py "]]" ++ post)
     = Raise UnicodeEncodeError).
Proof.
  intros Hpre HX Hl Hs.
  assert (∀ s, (∃ d, md5_hash s = Ok d) ↔ text_ok s = true) as Hok.
  { intros s. split.
    - intros [d Hd]. unfold md5_hash in Hd.
      destruct (encode s) as [bs|] eqn:E; [|done]. by eapply encode_text_ok.
    - intros H. destruct (md5_hash_ok s H) as (d & Hd & _). by exists d. }
  assert (∀ s, md5_hash s = Raise UnicodeEncodeError ↔ text_ok s = false) as Hraise.
  { intros s. split.
    - intros H. destruct (text_ok s) eqn:E; [|done].
      apply Hok in E as [d Hd]. congruence.
    - intros H. unfold md5_hash. destruct (encode s) as [bs|e] eqn:E.
      + apply encode_text_ok in E. congruence.
      + by rewrite (encode_raises s e E). }
  split; [done|]. split; [done|].
  intros Hbad. rewrite inline_md5 by done.
  apply Hraise in Hbad. by rewrite Hbad.
Qed.

Lemma surrogate_raises_witness :
  parse_inline_markdown (py "a" ++ py "[[" ++ [0xD800%N] ++ py "]]" ++ py "b")
  = Raise UnicodeEncodeError.
Proof.
  apply (proj2 (proj2 (surrogate_raises (py "a") [0xD800%N] (py "b")
                         eq_refl eq_refl eq_refl eq_refl))).
  reflexivity.
Defined.

(** ** Decoded text is converted without an exception, into encodable text *)

Lemma uint_text_ok d : text_ok (py (NilEmpty.string_of_uint d)) = true.
Proof.
  unfold py, text_ok.
  induction d as [|d IH|d IH|d IH|d IH|d IH|d IH|d IH|d IH|d IH|d IH];
    cbn [NilEmpty.string_of_uint list_ascii_of_string map forallb];
    [done|..]; by rewrite IH.
Qed.

Lemma heading_html_ok level c :
  text_ok c = true → text_ok (heading_html level c) = true.
Proof.
  intros Hc. unfold heading_html, str_of_nat, ln.
  by rewrite !text_ok_app, !uint_text_ok, Hc.
Qed.

Lemma parse_headings_out t h :
  text_ok t = true → parse_headings t = Ok (Some h) → text_ok h = true.
Proof.
  intros Ht. unfold parse_headings. rewrite heading_match.
  destruct (heading_parts t) as [[hs c]|] eqn:E; [|done].
  cbn [fmap option_fmap option_map group Nat.eqb].
  destruct (parse_inline_ok c (heading_parts_ok _ _ _ E Ht)) as (c' & -> & Hc').
  rewrite bind_Ok. intros [= <-]. by apply heading_html_ok.
Qed.

Lemma join_nl_ok l :
  Forall (λ s, text_ok s = true) l → text_ok (join_nl l) = true.
Proof.
  induction 1 as [|x l Hx Hl IH]; [done|]. cbn [join_nl].
  destruct l as [|y l]; [done|].
  change (x ++ nl :: join_nl (y :: l)) with (x ++ [nl] ++ join_nl (y :: l)).
  by rewrite !text_ok_app, Hx, IH.
Qed.

Lemma list_loop_out marker lines :
  Forall (λ l, text_ok l = true) lines →
  ∀ html_list r,
    Forall (λ l, text_ok l = true) html_list →
    list_loop marker lines html_list = Ok r → Forall (λ l, text_ok l = true) r.
Proof.
  induction 1 as [|line lines Hl _ IH]; intros html_list r Hacc; cbn [list_loop].
  - by intros [= <-].
  - destruct (startswith marker line); [|by intros [= <-]]. unfold item_of.
    destruct (parse_inline_ok (strip (drop 2 line))) as (t & -> & Ht).
    { by apply text_ok_strip, text_ok_drop. }
    rewrite bind_Ok. apply IH. apply Forall_app. split; [done|].
    repeat constructor. unfold li. by rewrite !text_ok_app, Ht.
Qed.

Lemma parse_unordered_list_out lines html n :
  Forall (λ l, text_ok l = true) lines →
  parse_unordered_list lines = Ok (Some (html, n)) → text_ok html = true.
Proof.
  intros H. unfold parse_unordered_list.
  destruct lines as [|line0 lines]; [done|]. destruct (negb _); [done|].
  rewrite ul_loop_eq.
  destruct (list_loop (py "- ") _ _) as [r|] eqn:E; [|done].
  rewrite bind_Ok. intros [= <- _].
  apply (list_loop_out _ _ H) in E; [|by repeat constructor].
  rewrite text_ok_app, join_nl_ok; [done|].
  apply Forall_app. split; [done|]. by repeat constructor.
Qed.

Lemma parse_ordered_list_out lines html n :
  Forall (λ l, text_ok l = true) lines →
  parse_ordered_list lines = Ok (Some (html, n)) → text_ok html = true.
Proof.
  intros H. unfold parse_ordered_list.
  destruct lines as [|line0 lines]; [done|]. destruct (negb _); [done|].
  rewrite ol_loop_eq.
  destruct (list_loop (py "* ") _ _) as [r|] eqn:E; [|done].
  rewrite bind_Ok. intros [= <- _].
  apply (list_loop_out _ _ H) in E; [|by repeat constructor].
  rewrite text_ok_app, join_nl_ok; [done|].
  apply Forall_app. split; [done|]. by repeat constructor.
Qed.

Lemma para_loop_out lines :
  Forall (λ l, text_ok l = true) lines →
  ∀ i html_para r,
    Forall (λ l, text_ok l = true) html_para →
    para_loop i lines html_para = Ok r → Forall (λ l, text_ok l = true) r.
Proof.
  induction 1 as [|line lines Hl _ IH]; intros i html_para r Hacc; cbn [para_loop].
  - by intros [= <-].
  - destruct (is_empty _); [by intros [= <-]|].
    destruct (parse_inline_ok (strip line) (text_ok_strip _ Hl)) as (t & -> & Ht).
    rewrite bind_Ok. apply IH. apply Forall_app. split; [|by repeat constructor].
    destruct (0 <? i); [|done]. apply Forall_app. split; [done|].
    by repeat constructor.
Qed.

Lemma parse_paragraph_out lines html n :
  Forall (λ l, text_ok l = true) lines →
  parse_paragraph lines = Ok (Some (html, n)) → text_ok html = true.
Proof.
  intros H. unfold parse_paragraph.
  destruct lines as [|line0 lines]; [done|]. destruct (is_empty _); [done|].
  destruct (para_loop 0 _ _) as [r|] eqn:E; [|done].
  rewrite bind_Ok. intros [= <- _].
  apply (para_loop_out _ H) in E; [|by repeat constructor].
  rewrite text_ok_app, join_nl_ok; [done|].
  apply Forall_app. split; [done|]. by repeat constructor.
Qed.

Lemma scan_step_out lines i html i' :
  Forall (λ l, text_ok l = true) lines →
  scan_step lines i = Ok (html, i') → text_ok html = true.
Proof.
  intros H. unfold scan_step.
  assert (text_ok (strip (default [] (lines !! i))) = true) as Hline.
  { apply text_ok_strip. destruct (lines !! i) as [line|] eqn:E; [|done].
    by eapply (Forall_lookup_1 _ _ _ _ H E). }
  destruct (parse_headings _) as [heading|] eqn:Eh; [|done]. rewrite bind_Ok.
  pose proof (Forall_drop _ i _ H) as Hd.
  destruct heading as [[|c h]|].
  2:{ intros [= <- _]. by apply (parse_headings_out _ _ Hline Eh). }
  all: destruct (parse_unordered_list _) as [[[hu nu]|]|] eqn:Eu; [| |done];
    rewrite bind_Ok;
    [intros [= <- _]; by apply (parse_unordered_list_out _ _ _ Hd Eu)|];
    destruct (parse_ordered_list _) as [[[ho no]|]|] eqn:Eo; [| |done];
    rewrite bind_Ok;
    [intros [= <- _]; by apply (parse_ordered_list_out _ _ _ Hd Eo)|];
    destruct (parse_paragraph _) as [[[hp np]|]|] eqn:Ep; [| |done];
    rewrite bind_Ok;
    [intros [= <- _]; by apply (parse_paragraph_out _ _ _ Hd Ep)|];
    by intros [= <- _].
Qed.

Lemma scan_out lines :
  Forall (λ l, text_ok l = true) lines →
  ∀ fuel i out out' e,
    text_ok out = true → scan fuel lines i out = Some (out', e) →
    text_ok out' = true ∧ e = None.
Proof.
  intros H. induction fuel as [|fuel IH]; intros i out out' e Hout; cbn [scan];
    [done|].
  destruct (i <? length lines); [|by intros [= <- <-]].
  destruct (scan_step_ok lines i H) as [[html i'] Hs]. rewrite Hs.
  apply IH. rewrite text_ok_app, Hout. by apply (scan_step_out _ _ _ _ H Hs).
Qed.

(** X10 (no exception on decoded text).  Lines without a surrogate code
    point, as reading a file yields them, are converted without any
    exception, and the text written holds no surrogate either. *)
Theorem decoded_text_converts lines fuel :
  Forall (λ l, text_ok l = true) lines → length lines < fuel →
  ∃ out, scan fuel lines 0 [] = Some (out, None) ∧ text_ok out = true.
Proof.
  intros H Hf.
  destruct (scan_enough_fuel lines fuel 0 [] ltac:(lia)) as [[out e] Hs].
  destruct (scan_out lines H fuel 0 [] out e eq_refl Hs) as [Hout ->].
  by exists out.
Qed.

Lemma decoded_text_converts_witness :
  ∃ out, scan 3 [ln "# [[a]]"; ln "- ((cc))"] 0 [] = Some (out, None)
         ∧ text_ok out = true.
Proof.
  apply (decoded_text_converts [ln "# [[a]]"; ln "- ((cc))"] 3).
  - repeat constructor.
  - cbn. lia.
Defined.

(** ** The scan works from the cursor on and only appends *)

Lemma scan_step_drop lines i j :
  scan_step lines (i + j)
  = (λ '(html, k), (html, i + k)) <$> scan_step (drop i lines) j.
Proof.
  unfold scan_step. rewrite lookup_drop, drop_drop.
  destruct (parse_headings _) as [heading|]; [|done]. rewrite !bind_Ok.
  destruct (parse_unordered_list _) as [[[hu nu]|]|];
    destruct (parse_ordered_list _) as [[[ho no]|]|];
    destruct (parse_paragraph _) as [[[hp np]|]|];
    destruct heading as [[|c h]|]; rewrite ?bind_Ok; cbn;
    try reflexivity; by rewrite Nat.add_assoc.
Qed.

Lemma scan_drop lines i :
  ∀ fuel j out, scan fuel lines (i + j) out = scan fuel (drop i lines) j out.
Proof.
  induction fuel as [|fuel IH]; intros j out; [done|]. cbn [scan].
  rewrite length_drop.
  assert ((i + j <? length lines) = (j <? length lines - i)) as ->.
  { destruct (j <? length lines - i) eqn:E.
    - apply Nat.ltb_lt in E. apply Nat.ltb_lt. lia.
    - apply Nat.ltb_ge in E. apply Nat.ltb_ge. lia. }
  destruct (j <? length lines - i); [|done].
  rewrite scan_step_drop.
  destruct (scan_step (drop i lines) j) as [[html k]|]; [|done].
  cbn. apply IH.
Qed.

Lemma scan_appends lines :
  ∀ fuel i out,
    scan fuel lines i out = (λ '(o, e), (out ++ o, e)) <$> scan fuel lines i [].
Proof.
  induction fuel as [|fuel IH]; intros i out; [done|]. cbn [scan].
  destruct (i <? length lines); [|cbn; by rewrite app_nil_r].
  destruct (scan_step lines i) as [[html i']|]; [|cbn; by rewrite app_nil_r].
  rewrite (IH i' (out ++ html)), (IH i' ([] ++ html)).
  destruct (scan fuel lines i' []) as [[o e]|]; [|done].
  cbn. by rewrite app_assoc.
Qed.

(** X11 (the scan from the cursor).  What the scan writes from cursor [i]
    on depends on the lines from [i] on only, and is appended to what has
    been written: the earlier output is never changed. *)
Theorem scan_from_cursor lines fuel i out :
  scan fuel lines i out
  = (λ '(o, e), (out ++ o, e)) <$> scan fuel (drop i lines) 0 [].
Proof.
  rewrite scan_appends. f_equal.
  rewrite <- (Nat.add_0_r i) at 1. apply scan_drop.
Qed.

(** X12 (blocks in a row).  The conversion of a document is the fragment
    of its first block followed by the conversion of the lines after the
    block, where the block ends at the cursor the first step returns; an
    exception in the first block ends the conversion with nothing
    written. *)
Theorem blocks_in_a_row lines fuel :
  lines ≠ [] →
  (∀ html n,
     scan_step lines 0 = Ok (html, n) →
     scan (S fuel) lines 0 []
     = (λ '(o, e), (html ++ o, e)) <$> scan fuel (drop n lines) 0 [])
  ∧ (∀ e, scan_step lines 0 = Raise e →
          scan (S fuel) lines 0 [] = Some ([], Some e)).
Proof.
  intros Hne.
  assert ((0 <? length lines) = true) as Hlen.
  { apply Nat.ltb_lt. destruct lines; [done|]. cbn. lia. }
  split.
  - intros html n Hs. cbn [scan]. rewrite Hlen, Hs.
    rewrite scan_appends. cbn [app]. f_equal.
    rewrite <- (Nat.add_0_r n) at 1. apply scan_drop.
  - intros e Hs. cbn [scan]. by rewrite Hlen, Hs.
Qed.

Lemma blocks_in_a_row_witness :
  scan 3 [ln "- a"; ln "- b"; ln "text"] 0 []
  = (λ '(o, e),
       (ln "<ul>" ++ ln "<li>a</li>" ++ ln "<li>b</li>" ++ ln "</ul>" ++ o, e))
      <$> scan 2 [ln "text"] 0 [].
Proof.
  apply (proj1 (blocks_in_a_row [ln "- a"; ln "- b"; ln "text"] 2
                  ltac:(discriminate))
           (ln "<ul>" ++ ln "<li>a</li>" ++ ln "<li>b</li>" ++ ln "</ul>") 2).
  vm_compute. reflexivity.
Defined.

(** ** The driver and the files *)

Lemma leave_with_keeps `{OS world} (P : world → Prop) (f : handle)
    (w w' : world) e e' :
  (∀ w1, P w1 → P (os_close w1 f).1) →
  leave_with f (w, e) = (w', e') → P w → P w'.
Proof.
  intros Hclose. unfold leave_with. pose proof (Hclose w) as Hw.
  destruct (os_close w f) as [w1 [e1|]]; intros [= <- _]; exact Hw.
Qed.



(** X14 (the two kinds of failed run).  A run that ends with a non-zero
    status is of one of two kinds.  Either it ended through [sys.exit(1)]
    after the usage message or the Missing message, and then no call has
    changed the world: no file was opened.  Or both arguments were given,
    the input path existed, and an exception left the conversion without
    being caught; the world is the one the conversion had reached. *)
Theorem failed_run_kinds `{OS world} (fuel : nat) (argv : list (list N))
    (w w' : world) (o : outcome) :
  main fuel argv w = Some (w', o) → status o ≠ 0 →
  (w' = w
   ∧ (o = Exit 1 usage ∨ o = Exit 1 (missing (default [] (argv !! 1)))))
  ∨ (3 ≤ length argv
     ∧ os_path_exists w (default [] (argv !! 1)) = true
     ∧ ∃ e, o = Uncaught e
            ∧ convert_markdown_to_html fuel (default [] (argv !! 1))
                (default [] (argv !! 2)) w = Some (w', Some e)).
Proof.
  unfold main. destruct (length argv <? 3) eqn:Eargs.
  { intros [= <- <-] _. left. split; [done|]. by left. }
  apply Nat.ltb_ge in Eargs.
  destruct (os_path_exists w _) eqn:Eex; cbn [negb].
  2:{ intros [= <- <-] _. left. split; [done|]. by right. }
  destruct (convert_markdown_to_html _ _ _ _) as [[w1 [e|]]|]; cbn; [| |done].
  - intros [= <- <-] _. right. split; [done|]. split; [done|]. by exists e.
  - by intros [= <- <-] Hs.
Qed.

Lemma failed_run_kinds_witness :
  let argv := [py "markdown2html.py"; py "a.md"; py "b.html"] in
  let fs : gmap (list N) (list N) := {[py "x" := py "y"]} in
  main 1 argv fs = Some (fs, Exit 1 (missing (py "a.md")))
  ∧ ((fs = fs
      ∧ (Exit 1 (missing (py "a.md")) = Exit 1 usage
         ∨ Exit 1 (missing (py "a.md")) = Exit 1 (missing (py "a.md"))))
     ∨ (3 ≤ length argv
        ∧ os_path_exists fs (py "a.md") = true
        ∧ ∃ e, Exit 1 (missing (py "a.md")) = Uncaught e
               ∧ convert_markdown_to_html 1 (py "a.md") (py "b.html") fs
                 = Some (fs, Some e))).
Proof.
  cbv zeta.
  assert (main 1 [py "markdown2html.py"; py "a.md"; py "b.html"]
            ({[py "x" := py "y"]} : gmap (list N) (list N))
          = Some ({[py "x" := py "y"]}, Exit 1 (missing (py "a.md")))) as Hrun.
  { unfold main. cbn [length Nat.ltb Nat.leb].
    change (default [] ([py "markdown2html.py"; py "a.md"; py "b.html"] !! 1))
      with (py "a.md").
    cbn [os_path_exists directory].
    rewrite bool_decide_eq_false_2; [reflexivity|].
    rewrite lookup_singleton_ne by (by vm_compute). by intros [? ?]. }
  split; [exact Hrun|].
  apply (failed_run_kinds 1 _ _ _ _ Hrun). cbn. lia.
Defined.

(** X15 (the run changes the world through the output only).  Whatever the
    operating system answers and however the run ends, the world is changed
    by nothing but opening the output path for writing, writing to and
    closing the file object this returned, and closing the file object of
    the input: a property of the world that these calls preserve holds
    after the run if it held before.  Nothing is ever written through the
    file object of the input. *)
Theorem world_changes_through_output `{OS world} (fuel : nat)
    (argv : list (list N)) (w w' : world) (o : outcome) (P : world → Prop) :
  kept_by_run (default [] (argv !! 1)) (default [] (argv !! 2)) w P →
  main fuel argv w = Some (w', o) → P w → P w'.
Proof.
  intros (Hopen & Hwrite & Hclose & Hclose_in) Hmain HP. revert Hmain.
  unfold main. destruct (length argv <? 3); [by intros [= <- _]|].
  destruct (negb _); [by intros [= <- _]|].
  unfold convert_markdown_to_html.
  destruct (os_open_r w _) as [md_file|e] eqn:Er; [|by intros [= <- _]].
  specialize (Hopen HP). specialize (Hclose_in md_file).
  assert (∀ w1 w2 e1 e2, leave_with md_file (w1, e1) = (w2, e2) → P w1 → P w2)
    as Hleave_in.
  { intros w1 w2 e1 e2. apply leave_with_keeps. intros w3. by apply Hclose_in. }
  assert (∀ (r : world * option exn),
            P r.1 →
            ('(w', e) ← Some (leave_with md_file r);
             match e with
             | Some e0 => Some (w', Uncaught e0)
             | None => Some (w', Exit 0 [])
             end) = Some (w', o) → P w') as Hend.
  { intros [w1 e1] HP1. cbn [fst] in HP1.
    destruct (leave_with md_file (w1, e1)) as [w2 e2] eqn:El. cbn.
    pose proof (Hleave_in _ _ _ _ El HP1) as HP2.
    by destruct e2; intros [= <- _]. }
  destruct (os_open_w w _) as [w1 [html_file|e]] eqn:Ew;
    cbn [fst snd] in Hopen, Hwrite, Hclose.
  2:{ cbn. apply (Hend (w1, Some e)). exact Hopen. }
  specialize (Hwrite html_file). specialize (Hclose html_file).
  assert (∀ w2 w3 e2 e3,
            leave_with html_file (w2, e2) = (w3, e3) → P w2 → P w3) as Hleave.
  { intros w2 w3 e2 e3. apply leave_with_keeps. intros w4. by apply Hclose. }
  destruct (os_readlines w1 md_file) as [lines|e].
  2:{ cbn. apply Hend.
      destruct (leave_with html_file (w1, Some e)) as [w2 e2] eqn:El.
      exact (Hleave _ _ _ _ El Hopen). }
  destruct (scan_io fuel lines 0 w1 html_file) as [[w2 e2]|] eqn:Es; [|done].
  cbn. apply Hend.
  destruct (leave_with html_file (w2, e2)) as [w3 e3] eqn:El.
  apply (Hleave _ _ _ _ El).
  apply (scan_io_keeps P lines html_file) with (fuel := fuel) (i := 0)
    (w := w1) (e := e2); [|done|done].
  intros w4 text. by apply Hwrite.
Qed.

Lemma world_changes_through_output_witness :
  let argv := [py "markdown2html.py"; py "a.md"; py "b.html"] in
  let fs : gmap (list N) (list N) :=
    {[py "a.md" := ln "# Title"; py "c" := py "kept"]} in
  main 2 argv fs = Some (<[py "b.html" := ln "<h1>Title</h1>"]> fs, Exit 0 [])
  ∧ (<[py "b.html" := ln "<h1>Title</h1>"]> fs) !! py "c" = Some (py "kept").
Proof.
  cbv zeta.
  assert (main 2 [py "markdown2html.py"; py "a.md"; py "b.html"]
            ({[py "a.md" := ln "# Title"; py "c" := py "kept"]}
             : gmap (list N) (list N))
          = Some (<[py "b.html" := ln "<h1>Title</h1>"]>
                    {[py "a.md" := ln "# Title"; py "c" := py "kept"]},
                  Exit 0 [])) as Hrun by (vm_compute; reflexivity).
  split; [exact Hrun|].
  assert (py "c" ≠ py "b.html") as Hne by (by vm_compute).
  apply (world_changes_through_output 2
           [py "markdown2html.py"; py "a.md"; py "b.html"]
           ({[py "a.md" := ln "# Title"; py "c" := py "kept"]}
            : gmap (list N) (list N))
           (<[py "b.html" := ln "<h1>Title</h1>"]>
              {[py "a.md" := ln "# Title"; py "c" := py "kept"]})
           (Exit 0 [])
           (λ fs : gmap (list N) (list N), fs !! py "c" = Some (py "kept")));
    [|exact Hrun|by vm_compute].
  change (default [] (_ !! 1)) with (py "a.md").
  change (default [] (_ !! 2)) with (py "b.html").
  assert (os_open_w ({[py "a.md" := ln "# Title"; py "c" := py "kept"]}
                     : gmap (list N) (list N)) (py "b.html")
          = (<[py "b.html" := []]>
               {[py "a.md" := ln "# Title"; py "c" := py "kept"]},
             Ok (py "b.html"))) as Hw by (vm_compute; reflexivity).
  unfold kept_by_run. rewrite Hw. cbn [fst snd].
  split; [|split; [|split]].
  - intros _. by rewrite lookup_insert_ne.
  - intros html_file w1 text [= <-] Hc. cbn. by rewrite lookup_insert_ne.
  - by intros html_file w1 _ Hc.
  - by intros md_file w1 _ Hc.
Defined.

(** ** Indentation and the shape of a heading *)

Lemma strip_skip w rest : isspace w = true → strip (w :: rest) = strip rest.
Proof. intros Hw. unfold strip. cbn [lstrip]. by rewrite Hw. Qed.

(** X16 (indented lines).  A list marker counts at the very start of the
    line only: a line that begins with whitespace is never a list item, even
    with ["- "] or ["* "] after the whitespace; unless it is a heading or
    blank once trimmed, it starts a paragraph. *)
Theorem indented_line_is_no_item lines i w rest :
  lines !! i = Some (w :: rest) → isspace w = true →
  (∀ level w' content, ¬ heading_form (strip rest) level w' content) →
  strip rest ≠ [] →
  let run := take_while nonblank (drop i lines) in
  parse_unordered_list (drop i lines) = Ok None
  ∧ parse_ordered_list (drop i lines) = Ok None
  ∧ scan_step lines i
    = (texts ← mapM (λ l, parse_inline_markdown (strip l)) run;
       Ok (para_html texts, i + (2 * length run - 1))).
Proof.
  intros Hi Hw Hh Hb run.
  assert (∀ a b, isspace a = false → startswith [a; b] (w :: rest) = false) as Hm.
  { intros a b Ha. cbn. assert ((a =? w)%N = false) as ->; [|done].
    apply N.eqb_neq. intros ->. congruence. }
  split; [|split].
  - rewrite (drop_S _ _ _ Hi). apply parse_unordered_list_other.
    intros ? ? [= <- <-]. by apply (Hm (ch "-") (ch " ")).
  - rewrite (drop_S _ _ _ Hi). apply parse_ordered_list_other.
    intros ? ? [= <- <-]. by apply (Hm (ch "*") (ch " ")).
  - apply (para_step lines i (w :: rest)); try done.
    + rewrite strip_skip by done. rewrite <- (strip_skip w rest Hw) in Hh.
      rewrite <- (strip_skip w rest Hw). by apply parse_headings_other.
    + by apply (Hm (ch "-") (ch " ")).
    + by apply (Hm (ch "*") (ch " ")).
    + unfold nonblank. rewrite strip_skip by done. by destruct (strip rest).
Qed.

Lemma indented_line_is_no_item_witness :
  scan_step [py " - a" ++ [nl]; ln "- b"] 0
  = Ok (ln "<p>" ++ ln "- a" ++ ln "<br/>" ++ ln "- b" ++ ln "</p>", 3).
Proof.
  rewrite (proj2 (proj2 (indented_line_is_no_item
                           [py " - a" ++ [nl]; ln "- b"] 0 (ch " ") (ln "- a")
                           eq_refl eq_refl
                           ltac:(intros level w content ([H1 _] & _ & _ & _ & H);
                                 destruct level; [lia|];
                                 vm_compute in H; discriminate H)
                           ltac:(by vm_compute)))).
  vm_compute. reflexivity.
Defined.

(** X17 (shape of a heading).  Whatever line [parse_headings] accepts, the
    fragment is [<hN>], a text, [</hN>] and a newline, with the same digit
    [N] from 1 to 6 in both tags; it is never empty, so the truth test of
    the scan never drops a heading. *)
Theorem heading_fragment_shape t h :
  parse_headings t = Ok (Some h) →
  ∃ level c,
    1 ≤ level ≤ 6
    ∧ h = py "<h" ++ [(48 + N.of_nat level)%N] ++ py ">" ++ c
            ++ py "</h" ++ [(48 + N.of_nat level)%N] ++ ln ">"
    ∧ h ≠ [].
Proof.
  unfold parse_headings. rewrite heading_match.
  destruct (heading_parts t) as [[hs c]|] eqn:E; [|done].
  cbn [fmap option_fmap option_map group Nat.eqb].
  destruct (parse_inline_markdown c) as [c'|]; [|done]. rewrite bind_Ok.
  intros [= <-]. exists (length hs), c'.
  assert (1 ≤ length hs ≤ 6) as Hlevel.
  { unfold heading_parts in E.
    destruct ((1 <=? _) && (_ <=? 6)) eqn:En; [|done].
    apply andb_prop in En as [E1%Nat.leb_le E6%Nat.leb_le].
    destruct (drop _ t) as [|w s]; [done|]. destruct (isspace w); [|done].
    destruct (1 <=? _); [|done].
    destruct (drop _ s) as [|a [|a' s']]; [| |done].
    - by injection E as <- _.
    - destruct (a =? nl)%N; [|done]. by injection E as <- _. }
  split; [done|]. split; [|done]. unfold heading_html.
  destruct (length hs) as [|[|[|[|[|[|[|n]]]]]]]; try lia; reflexivity.
Qed.

Lemma heading_fragment_shape_witness :
  ∃ level c,
    1 ≤ level ≤ 6
    ∧ ln "<h2>x</h2>" = py "<h" ++ [(48 + N.of_nat level)%N] ++ py ">" ++ c
                          ++ py "</h" ++ [(48 + N.of_nat level)%N] ++ ln ">"
    ∧ ln "<h2>x</h2>" ≠ [].
Proof.
  apply (heading_fragment_shape (py "## x")). vm_compute. reflexivity.
Defined.
